(** * Retry and error-classification core of the cover-letter generator

    A shallow embedding of
    - [utils/errorHandler.ts]   ([EnhancedError], [ErrorHandler]),
    - [services/retryService.ts] ([RetryService], [RetryManager]),
    - the conversions of [services/openaiService.ts],
    - the part of [types/index.ts] they use ([ErrorType], [AppError],
      [ApiResponse], [RetryOptions]),
    followed by the properties stated about them.

    Conventions of the embedding.
    - [processError] takes a value of TypeScript type [unknown]; the types are
      erased when the code runs, so its argument is a run-time JavaScript
      value ([Js.Value]) and the function is embedded with the duck typing it
      performs ([in], [instanceof], [typeof], truthiness).
    - An expression that can raise is a [Js.Completion]; that includes every
      conversion of a value to a string.
    - Attempt counters and status codes are integers ([Z]).  Delays and the
      backoff multiplier are IEEE 754 binary64 numbers ([float], the
      primitive doubles): products are rounded as the processor rounds them.
      [Math.pow] returns what the standard calls an implementation-approximated
      value, so it is a parameter of the embedding ([Js.Platform]); the one
      result built in is the 1 that the standard fixes for the exponent 0.
    - An [async] method is cut at its single [await]: the synchronous prefix
      and the continuation that runs once the operation has settled. *)

From Stdlib Require Import Floats.
From Stdlib Require Import ZArith QArith Ascii String List Bool Lia DecimalString.
Import ListNotations.

Set Warnings "-register-all,-inexact-float".

Open Scope string_scope.
Open Scope list_scope.
Open Scope Z_scope.

(* ================================================================== *)
(** ** Run-time values *)
(* ================================================================== *)

Module Js.

(** What [instanceof] can tell apart: a plain object, an instance of the
    built-in [Error], an instance of [EnhancedError] (which extends [Error]). *)
Inductive Class : Type :=
| PlainObject
| ErrorObject
| EnhancedErrorObject.

(** Data values.  Functions, symbols, arrays and objects without the usual
    prototype are not represented.  [Number n] is the number written as the
    integer literal [n]. *)
Inductive Value : Type :=
| Undefined
| Null
| Boolean (b : bool)
| Number (n : Z)
| Str (s : string)
| Object (cls : Class) (props : list (string * Value)).

Inductive Completion (A : Type) : Type :=
| Normal (a : A)
| Throw (exn : Value).

Arguments Normal {A} a.
Arguments Throw {A} exn.

Definition bind {A B : Type} (c : Completion A) (k : A -> Completion B) : Completion B :=
  match c with
  | Normal a => k a
  | Throw e => Throw e
  end.

Notation "'let!' x ':=' c 'in' k" := (bind c (fun x => k))
  (at level 10, x name, c at level 100, k at level 200).

(** Own properties, in the order of the object literal. *)
Fixpoint own (props : list (string * Value)) (key : string) : option Value :=
  match props with
  | [] => None
  | (k, v) :: rest => if String.eqb k key then Some v else own rest key
  end.

(** Data properties found on the prototype chain: [Error.prototype.message]
    is the empty string and [Error.prototype.name] is ["Error"]. *)
Definition proto (cls : Class) (key : string) : option Value :=
  match cls with
  | PlainObject => None
  | ErrorObject | EnhancedErrorObject =>
      if String.eqb key "message" then Some (Str "")
      else if String.eqb key "name" then Some (Str "Error")
      else None
  end.

(** [v.key] for a [v] that is not [null] or [undefined]. *)
Definition get (v : Value) (key : string) : Value :=
  match v with
  | Object cls props =>
      match own props key with
      | Some x => x
      | None => match proto cls key with Some x => x | None => Undefined end
      end
  | _ => Undefined
  end.

(** [key in v], for an object [v]. *)
Definition has (v : Value) (key : string) : bool :=
  match v with
  | Object cls props =>
      match own props key with
      | Some _ => true
      | None => match proto cls key with Some _ => true | None => false end
      end
  | _ => false
  end.

(** [typeof v === 'object'] ([typeof null] is ['object']). *)
Definition typeof_object (v : Value) : bool :=
  match v with
  | Null | Object _ _ => true
  | _ => false
  end.

Definition is_null (v : Value) : bool :=
  match v with Null => true | _ => false end.

Definition instanceof_EnhancedError (v : Value) : bool :=
  match v with Object EnhancedErrorObject _ => true | _ => false end.

Definition instanceof_Error (v : Value) : bool :=
  match v with
  | Object ErrorObject _ | Object EnhancedErrorObject _ => true
  | _ => false
  end.

(** ToBoolean. *)
Definition truthy (v : Value) : bool :=
  match v with
  | Undefined | Null => false
  | Boolean b => b
  | Number n => negb (n =? 0)
  | Str s => negb (String.eqb s "")
  | Object _ _ => true
  end.

(** [a || b]. *)
Definition or_else (a b : Value) : Value := if truthy a then a else b.

(** [String.prototype.includes]. *)
Fixpoint string_includes (s sub : string) : bool :=
  String.prefix sub s ||
  match s with
  | EmptyString => false
  | String _ rest => string_includes rest sub
  end.

(** The [TypeError] raised by the engine (its message depends on the engine
    and is left out). *)
Definition TypeError : Value := Object ErrorObject [("name", Str "TypeError")].

(** [recv.includes(sub)]: only a string has that method among the values
    represented; reading it off [undefined] or [null], or calling it on a
    number, a boolean or an object, raises [TypeError]. *)
Definition call_includes (recv : Value) (sub : string) : Completion bool :=
  match recv with
  | Str s => Normal (string_includes s sub)
  | _ => Throw TypeError
  end.

(** *** [Number::toString] on an integer *)

(** The double nearest to the integer [n > 0], ties to the even mantissa, as
    an integer; [None] when it is [Infinity]. *)
Definition nearest_double (n : Z) : option Z :=
  let excess := Z.log2 n - 52 in
  if excess <=? 0 then Some n
  else
    let mantissa := Z.shiftr n excess in
    let rest := n - Z.shiftl mantissa excess in
    let half := Z.shiftl 1 (excess - 1) in
    let up := (half <? rest) || ((rest =? half) && Z.odd mantissa) in
    let v := Z.shiftl (if up then mantissa + 1 else mantissa) excess in
    if Z.shiftl 1 1024 <=? v then None else Some v.

(** Whether the integer [c] reads back as the double [v >= 2^53]: it lies
    within half a unit in the last place of [v], the ends included when the
    mantissa of [v] is even.  Distances are counted in quarters of a unit. *)
Definition reads_back (v c : Z) : bool :=
  let exponent := Z.log2 v - 52 in
  let mantissa := Z.shiftr v exponent in
  let above := Z.shiftl 1 (exponent + 1) in
  let below := if mantissa =? Z.shiftl 1 52 then Z.shiftl 1 exponent else above in
  if Z.even mantissa
  then (4 * v - below <=? 4 * c) && (4 * c <=? 4 * v + above)
  else (4 * v - below <? 4 * c) && (4 * c <? 4 * v + above).

Definition decimal (n : Z) : string := NilZero.string_of_int (Z.to_int n).

(** The decimal with the fewest significant digits that reads back as [v],
    the closest to [v] among those (the even one on a tie); [zeros] is the
    number of zeros that end the candidates being tried.  Seventeen digits
    always suffice. *)
Fixpoint shortest (tries : nat) (v zeros : Z) : Z :=
  match tries with
  | O => v
  | S tries' =>
      let unit := 10 ^ zeros in
      let low := v / unit * unit in
      let high := low + unit in
      match reads_back v low, reads_back v high with
      | true, true =>
          if (v - low <? high - v) || ((v - low =? high - v) && Z.even (v / unit))
          then low else high
      | true, false => low
      | false, true => high
      | false, false => if zeros <=? 0 then v else shortest tries' v (zeros - 1)
      end
  end.

Fixpoint strip_zeros (reversed : string) : string :=
  match reversed with
  | String "0"%char rest => strip_zeros rest
  | _ => reversed
  end.

Fixpoint reverse (s acc : string) : string :=
  match s with
  | EmptyString => acc
  | String c rest => reverse rest (String c acc)
  end.

(** The digits of [c] when there are at most 21 of them, and the
    exponential notation beyond. *)
Definition format (c : Z) : string :=
  let digits := decimal c in
  let n := Z.of_nat (String.length digits) in
  if n <=? 21 then digits
  else
    match reverse (strip_zeros (reverse digits "")) "" with
    | String first EmptyString => String first ("e+" ++ decimal (n - 1))
    | String first rest => String first ("." ++ rest ++ "e+" ++ decimal (n - 1))
    | EmptyString => digits
    end.

(** [String(n)] for the number written as the integer literal [n]: the
    literal denotes the nearest double, and the text is the shortest decimal
    that reads back as that double. *)
Definition Number_toString (n : Z) : string :=
  match n with
  | Z0 => "0"
  | Zpos _ | Zneg _ =>
      let text :=
        match nearest_double (Z.abs n) with
        | None => "Infinity"
        | Some v =>
            if v <? Z.shiftl 1 53 then decimal v
            else format (shortest 17 v (Z.of_nat (String.length (decimal v)) - 1))
        end in
      if n <? 0 then "-" ++ text else text
  end.

(** *** Conversion to a string *)

(** [String(v)], which is also the conversion made by a template literal, by
    the [Error] constructor on its message and by a property access on its
    key.  On an object the conversion calls its [toString]:
    - an own property [toString] of the object is not a function (no value
      represented here is), so it is skipped; [valueOf] is tried next and
      gives no primitive, and the conversion raises [TypeError];
    - otherwise [Object.prototype.toString] gives ["[object Object]"] on a
      plain object, and [Error.prototype.toString] on an error instance joins
      the [name] and the [message] of the instance, each converted in turn. *)
Fixpoint String_ (v : Value) : Completion string :=
  match v with
  | Undefined => Normal "undefined"
  | Null => Normal "null"
  | Boolean true => Normal "true"
  | Boolean false => Normal "false"
  | Number n => Normal (Number_toString n)
  | Str s => Normal s
  | Object cls props =>
      let fix converted (ps : list (string * Value)) (key : string)
        : option (Value * Completion string) :=
        match ps with
        | [] => None
        | (k, x) :: rest =>
            if String.eqb k key then Some (x, String_ x) else converted rest key
        end in
      let text (key default : string) : Completion string :=
        match converted props key with
        | None | Some (Undefined, _) => Normal default
        | Some (_, conversion) => conversion
        end in
      match own props "toString" with
      | Some _ => Throw TypeError
      | None =>
          match cls with
          | PlainObject => Normal "[object Object]"
          | ErrorObject | EnhancedErrorObject =>
              let! name := text "name" "Error" in
              let! msg := text "message" "" in
              Normal (if String.eqb name "" then msg
                      else if String.eqb msg "" then name
                      else (name ++ ": " ++ msg)%string)
          end
      end
  end.

(** What [Error.prototype.toString] reads for [name] and [message]: the
    [default] when the own property is absent or [undefined], and the
    property converted otherwise. *)
Definition property_text (props : list (string * Value)) (key default : string)
  : Completion string :=
  match own props key with
  | None | Some Undefined => Normal default
  | Some x => String_ x
  end.

(** Induction on a value that reaches the values stored in an object. *)
Section Value_nested_ind.

Variable P : Value -> Prop.
Hypothesis on_undefined : P Undefined.
Hypothesis on_null : P Null.
Hypothesis on_boolean : forall b, P (Boolean b).
Hypothesis on_number : forall n, P (Number n).
Hypothesis on_string : forall s, P (Str s).
Hypothesis on_object :
  forall cls props, Forall (fun entry => P (snd entry)) props -> P (Object cls props).

Fixpoint Value_nested_ind (v : Value) : P v :=
  match v with
  | Undefined => on_undefined
  | Null => on_null
  | Boolean b => on_boolean b
  | Number n => on_number n
  | Str s => on_string s
  | Object cls props =>
      on_object cls props
        ((fix each (ps : list (string * Value)) : Forall (fun entry => P (snd entry)) ps :=
            match ps with
            | [] => Forall_nil _
            | (k, x) :: rest => Forall_cons (k, x) (Value_nested_ind x) (each rest)
            end) props)
  end.

End Value_nested_ind.

(** *** Numbers that are not integers *)

(** ToBoolean on a double: [0], [-0] and [NaN] are falsy. *)
Definition falsy (x : float) : bool := PrimFloat.is_zero x || PrimFloat.is_nan x.

(** [Math.pow] is specified as an implementation-approximated value: the
    platform chooses it.  The exponents passed here are integers. *)
Class Platform : Type := {
  approximate_pow : float -> Z -> float
}.

(** [Math.pow(base, exponent)]: the standard fixes the result 1 for an
    exponent of 0, whatever the base. *)
Definition Math_pow {platform : Platform} (base : float) (exponent : Z) : float :=
  if exponent =? 0 then 1%float else approximate_pow base exponent.


End Js.

(* ================================================================== *)
(** ** types/index.ts *)
(* ================================================================== *)

Module Types.

(** [enum ErrorType]; each member is the string of its own name. *)
Inductive ErrorType : Type :=
| API_KEY_MISSING
| API_KEY_INVALID
| NETWORK_ERROR
| API_RATE_LIMIT
| API_CONTENT_POLICY
| API_GENERAL_ERROR
| PDF_GENERATION_ERROR
| VALIDATION_ERROR
| UNKNOWN_ERROR.

Definition ErrorType_str (t : ErrorType) : string :=
  match t with
  | API_KEY_MISSING => "API_KEY_MISSING"
  | API_KEY_INVALID => "API_KEY_INVALID"
  | NETWORK_ERROR => "NETWORK_ERROR"
  | API_RATE_LIMIT => "API_RATE_LIMIT"
  | API_CONTENT_POLICY => "API_CONTENT_POLICY"
  | API_GENERAL_ERROR => "API_GENERAL_ERROR"
  | PDF_GENERATION_ERROR => "PDF_GENERATION_ERROR"
  | VALIDATION_ERROR => "VALIDATION_ERROR"
  | UNKNOWN_ERROR => "UNKNOWN_ERROR"
  end.

Definition ErrorType_value (t : ErrorType) : Js.Value := Js.Str (ErrorType_str t).

(** [retryableErrors.includes(v)]: the members are strings, so only a string
    can be found. *)
Definition ErrorTypes_includes (l : list ErrorType) (v : Js.Value) : bool :=
  match v with
  | Js.Str s => existsb (fun t => String.eqb (ErrorType_str t) s) l
  | _ => false
  end.

(** [interface RetryOptions]: every field is optional, and [None] is an
    absent key.  (A key that is present with the value [undefined] is not
    represented: a spread would copy that [undefined] over a default.)
    [maxAttempts] is an integer.  A callback is opaque; what is kept of it is
    whether it was supplied, its calls are recorded in the trace of the
    function that makes them, and it is taken to return normally. *)
Record RetryOptions : Type := {
  maxAttempts : option Z;
  baseDelay : option float;
  backoffMultiplier : option float;
  retryableErrors : option (list ErrorType);
  onRetry : bool;
  onMaxAttemptsReached : bool
}.

(** An [AppError] object literal [{ type, message, retryable }]. *)
Definition AppError (t : ErrorType) (message : string) (retryable : bool) : Js.Value :=
  Js.Object Js.PlainObject
    [("type", ErrorType_value t); ("message", Js.Str message); ("retryable", Js.Boolean retryable)].

(** An [ApiResponse] object literal [{ success: false, error, statusCode }]. *)
Definition ApiFailure (statusCode : Z) (error : string) : Js.Value :=
  Js.Object Js.PlainObject
    [("success", Js.Boolean false); ("error", Js.Str error); ("statusCode", Js.Number statusCode)].

(** [{ success: false, error }], without a status code. *)
Definition ApiFailure_no_status (error : string) : Js.Value :=
  Js.Object Js.PlainObject [("success", Js.Boolean false); ("error", Js.Str error)].

(** [new Error(message)] *)
Definition Error_new (message : string) : Js.Value :=
  Js.Object Js.ErrorObject [("message", Js.Str message)].

End Types.

(* ================================================================== *)
(** ** utils/errorHandler.ts *)
(* ================================================================== *)

Module ErrorHandler.

Import Js Types.

(** [new EnhancedError(appError)].  [super(appError.message)] stores the
    message converted to a string unless it is [undefined], and raises when
    the conversion does; reading a property of [null] or [undefined] raises.
    The [timestamp] (the clock) and the [stack] are left out. *)
Definition EnhancedError_new (appError : Value) : Completion Value :=
  match appError with
  | Undefined | Null => Throw TypeError
  | _ =>
      let! message :=
        match get appError "message" with
        | Undefined => Normal []
        | m => let! text := String_ m in Normal [("message", Str text)]
        end in
      Normal (Object EnhancedErrorObject
        (message ++
         [("name", Str "EnhancedError");
          ("type", get appError "type");
          ("code", get appError "code");
          ("retryable", get appError "retryable");
          ("details", get appError "details")]))
  end.

(** [EnhancedError.prototype.toAppError] *)
Definition toAppError (this : Value) : Value :=
  Object PlainObject
    [("type", get this "type");
     ("message", get this "message");
     ("code", get this "code");
     ("retryable", get this "retryable");
     ("details", get this "details")].

Definition isAppError (error : Value) : bool :=
  typeof_object error && negb (is_null error) &&
  has error "type" && has error "message" && has error "retryable".

Definition isApiResponse (error : Value) : bool :=
  typeof_object error && negb (is_null error) && has error "success".

Definition processApiResponseError (response : Value) : Completion Value :=
  let statusCode := get response "statusCode" in
  let message := or_else (get response "error") (Str "Unknown API error") in
  let result (errorType : ErrorType) (retryable : bool) : Completion Value :=
    Normal (Object PlainObject
      [("type", ErrorType_value errorType);
       ("message", message);
       ("code", or_else statusCode (Number 500));
       ("retryable", Boolean retryable)]) in
  match statusCode with
  | Number n =>
      if n =? 401 then
        let! key := call_includes message "API key" in
        result (if key then API_KEY_INVALID else API_KEY_MISSING) false
      else if n =? 429 then result API_RATE_LIMIT true
      else if n =? 400 then
        let! policy := call_includes message "content policy" in
        result (if policy then API_CONTENT_POLICY else VALIDATION_ERROR) false
      else if (n =? 0) || (n =? 408) then result NETWORK_ERROR true
      else result API_GENERAL_ERROR true
  | _ => result API_GENERAL_ERROR true
  end.

(** [a.includes(x) || a.includes(y)]: the second call is made only when the
    first returns false. *)
Definition includes_either (recv : Value) (x y : string) : Completion bool :=
  let! first := call_includes recv x in
  if first then Normal true else call_includes recv y.

Definition processJavaScriptError (error : Value) : Completion Value :=
  let message := get error "message" in
  let! network := includes_either message "fetch" "network" in
  if network then
    Normal (Object PlainObject
      [("type", ErrorType_value NETWORK_ERROR);
       ("message", Str "Network connection failed");
       ("details", message);
       ("retryable", Boolean true)])
  else
    let! validation := includes_either message "validation" "required" in
    if validation then
      Normal (Object PlainObject
        [("type", ErrorType_value VALIDATION_ERROR);
         ("message", message);
         ("retryable", Boolean false)])
    else
      Normal (Object PlainObject
        [("type", ErrorType_value UNKNOWN_ERROR);
         ("message", or_else message (Str "An unexpected error occurred"));
         ("details", get error "stack");
         ("retryable", Boolean true)]).

Definition processError (error : Value) : Completion Value :=
  if instanceof_EnhancedError error then Normal (toAppError error)
  else if isAppError error then Normal error
  else if isApiResponse error && negb (truthy (get error "success")) then
    processApiResponseError error
  else if instanceof_Error error then processJavaScriptError error
  else
    let! details := String_ error in
    Normal (Object PlainObject
      [("type", ErrorType_value UNKNOWN_ERROR);
       ("message", Str "An unexpected error occurred");
       ("details", Str details);
       ("retryable", Boolean true)]).

End ErrorHandler.

(* ================================================================== *)
(** ** services/retryService.ts: [RetryService] *)
(* ================================================================== *)

Module RetryService.

Import Js Types.

(** How a promise settles. *)
Inductive Settled (T : Type) : Type :=
| Resolved (value : T)
| Rejected (reason : Value).

Arguments Resolved {T} value.
Arguments Rejected {T} reason.

(** The wrapped [operation : () => Promise<T>] is opaque; what a run sees of
    it is how its successive invocations settle.  [operation k] is the
    outcome of invocation number [k], counting from 0. *)
Definition Operation (T : Type) : Type := nat -> Settled T.

(** What a run does that can be observed from outside: invocations of the
    operation, calls of the two callbacks, and the timer it awaits. *)
Inductive Event : Type :=
| Invoke
| OnRetry (attempt : Z) (error : Value)
| OnMaxAttemptsReached (error : Value)
| Delay (ms : float).

(** [Required<Omit<RetryOptions, 'onRetry' | 'onMaxAttemptsReached'>>] *)
Record Config : Type := {
  maxAttempts : Z;
  baseDelay : float;
  backoffMultiplier : float;
  retryableErrors : list ErrorType
}.

Definition defaultOptions : Config := {|
  maxAttempts := 3;
  baseDelay := 1000;
  backoffMultiplier := 2;
  retryableErrors := [NETWORK_ERROR; API_RATE_LIMIT; API_GENERAL_ERROR; UNKNOWN_ERROR]
|}.

Definition spread {A : Type} (default : A) (given : option A) : A :=
  match given with
  | Some a => a
  | None => default
  end.

(** [{ ...this.defaultOptions, ...options }] *)
Definition merge (options : RetryOptions) : Config := {|
  maxAttempts := spread (maxAttempts defaultOptions) (Types.maxAttempts options);
  baseDelay := spread (baseDelay defaultOptions) (Types.baseDelay options);
  backoffMultiplier := spread (backoffMultiplier defaultOptions) (Types.backoffMultiplier options);
  retryableErrors := spread (retryableErrors defaultOptions) (Types.retryableErrors options)
|}.

Definition isRetryableError (error : Value) (retryableErrors : list ErrorType) : bool :=
  truthy (get error "retryable") && ErrorTypes_includes retryableErrors (get error "type").

Definition calculateDelay {platform : Platform} (attempt : Z)
    (baseDelay backoffMultiplier : float) : float :=
  (baseDelay * Math_pow backoffMultiplier (attempt - 1))%float.

(** [callback?.(...)]: the call is made when the callback was supplied. *)
Definition optional_call (supplied : bool) (call : Event) : list Event :=
  if supplied then [call] else [].

(** [throw new EnhancedError(e)] inside an [async] function. *)
Definition throw_EnhancedError {T : Type} (e : Value) : Settled T :=
  match ErrorHandler.EnhancedError_new e with
  | Normal enhanced => Rejected enhanced
  | Throw exn => Rejected exn
  end.

Section ExecuteWithRetry.

Context {platform : Platform} {T : Type}.
Variable operation : Operation T.
Variable options : RetryOptions.

(** The [for] loop.  [attempt] runs over 1, 2, ... while
    [attempt <= config.maxAttempts]; [remaining] is the number of iterations
    that condition still allows, [maxAttempts - attempt + 1].  [calls] counts
    the invocations made so far.  The result is the trace of the run and how
    the returned promise settles. *)
Fixpoint attempts (remaining : nat) (attempt : Z) (lastError : Value) (calls : nat)
  : list Event * Settled T :=
  let config := merge options in
  match remaining with
  | O => ([], throw_EnhancedError lastError)
  | S remaining' =>
      match operation calls with
      | Resolved value => ([Invoke], Resolved value)
      | Rejected error =>
          match ErrorHandler.processError error with
          | Throw exn => ([Invoke], Rejected exn)
          | Normal processedError =>
              if negb (isRetryableError processedError (retryableErrors config)) then
                ([Invoke], throw_EnhancedError processedError)
              else if attempt =? maxAttempts config then
                (Invoke :: optional_call (Types.onMaxAttemptsReached options)
                             (OnMaxAttemptsReached processedError),
                 throw_EnhancedError processedError)
              else
                let delay := calculateDelay attempt (baseDelay config) (backoffMultiplier config) in
                let rest := attempts remaining' (attempt + 1) processedError (S calls) in
                (Invoke :: optional_call (Types.onRetry options) (OnRetry attempt processedError)
                   ++ Delay delay :: fst rest,
                 snd rest)
          end
      end
  end.

Definition executeWithRetry : list Event * Settled T :=
  attempts (Z.to_nat (maxAttempts (merge options))) 1 Null 0.

End ExecuteWithRetry.

(** Projections of a trace. *)
Definition invocations (trace : list Event) : nat :=
  List.length (filter (fun e => match e with Invoke => true | _ => false end) trace).

Fixpoint onRetry_calls (trace : list Event) : list (Z * Value) :=
  match trace with
  | [] => []
  | OnRetry attempt error :: rest => (attempt, error) :: onRetry_calls rest
  | _ :: rest => onRetry_calls rest
  end.

Fixpoint onMaxAttemptsReached_calls (trace : list Event) : list Value :=
  match trace with
  | [] => []
  | OnMaxAttemptsReached error :: rest => error :: onMaxAttemptsReached_calls rest
  | _ :: rest => onMaxAttemptsReached_calls rest
  end.

Fixpoint delays (trace : list Event) : list float :=
  match trace with
  | [] => []
  | Delay ms :: rest => ms :: delays rest
  | _ :: rest => delays rest
  end.

End RetryService.

(* ================================================================== *)
(** ** services/retryService.ts: [RetryManager] *)
(* ================================================================== *)

Module RetryManager.

Import Js Types.
Import RetryService (Settled, Resolved, Rejected, Event, Invoke, OnRetry, OnMaxAttemptsReached,
                     Config, optional_call, throw_EnhancedError).

(** [interface RetryState]; [lastError] is [null] ([None]) or an [AppError]. *)
Record RetryState : Type := {
  attempt : Z;
  maxAttempts : Z;
  lastError : option Value;
  isRetrying : bool;
  nextRetryDelay : float
}.

(** The private fields of a manager, apart from the operation. *)
Record Manager : Type := {
  options : Config;
  retryCallbacks : bool * bool;
  state : RetryState
}.

(** [given || default] on an optional number: [undefined] and [0] are falsy. *)
Definition or_Z (given : option Z) (default : Z) : Z :=
  match given with
  | Some n => if n =? 0 then default else n
  | None => default
  end.

(** The same on an optional double: [0], [-0] and [NaN] are falsy too. *)
Definition or_number (given : option float) (default : float) : float :=
  match given with
  | Some x => if falsy x then default else x
  | None => default
  end.

(** [given || default] on an optional array: every array is truthy. *)
Definition or_list {A : Type} (given : option (list A)) (default : list A) : list A :=
  match given with
  | Some l => l
  | None => default
  end.

Definition initial_state (opts : Config) : RetryState := {|
  attempt := 0;
  maxAttempts := RetryService.maxAttempts opts;
  lastError := None;
  isRetrying := false;
  nextRetryDelay := RetryService.baseDelay opts
|}.

(** [constructor(operation, options)] *)
Definition new (opts : RetryOptions) : Manager :=
  let resolved := {|
    RetryService.maxAttempts := or_Z (Types.maxAttempts opts) 3;
    RetryService.baseDelay := or_number (Types.baseDelay opts) 1000;
    RetryService.backoffMultiplier := or_number (Types.backoffMultiplier opts) 2;
    RetryService.retryableErrors :=
      or_list (Types.retryableErrors opts)
        [NETWORK_ERROR; API_RATE_LIMIT; API_GENERAL_ERROR; UNKNOWN_ERROR]
  |} in
  {| options := resolved;
     retryCallbacks := (Types.onRetry opts, Types.onMaxAttemptsReached opts);
     state := initial_state resolved |}.

Definition set_state (m : Manager) (s : RetryState) : Manager :=
  {| options := options m; retryCallbacks := retryCallbacks m; state := s |}.

Definition isRetryableError (m : Manager) (error : Value) : bool :=
  truthy (get error "retryable") &&
  ErrorTypes_includes (RetryService.retryableErrors (options m)) (get error "type").

Definition calculateDelay {platform : Platform} (m : Manager) (attempt : Z) : float :=
  (RetryService.baseDelay (options m)
   * Math_pow (RetryService.backoffMultiplier (options m)) (attempt - 1))%float.

Definition canRetry (m : Manager) : bool :=
  match lastError (state m) with
  | None => false
  | Some error =>
      (attempt (state m) <? maxAttempts (state m)) &&
      isRetryableError m error &&
      negb (isRetrying (state m))
  end.

(** [getState()] returns a copy of the state record. *)
Definition getState (m : Manager) : RetryState := state m.

Definition reset (m : Manager) : Manager :=
  set_state m {|
    attempt := 0;
    maxAttempts := RetryService.maxAttempts (options m);
    lastError := None;
    isRetrying := false;
    nextRetryDelay := RetryService.baseDelay (options m)
  |}.

(** [new Error('Cannot retry: ...')] *)
Definition CannotRetry : Value :=
  Error_new "Cannot retry: operation is not retryable or max attempts reached".

Section Methods.

Context {platform : Platform} {T : Type}.

(** [execute()] up to [await this.operation()]: the operation has been
    invoked and is pending. *)
Definition execute_start (m : Manager) : Manager * list Event :=
  (set_state m {|
     attempt := 1;
     maxAttempts := maxAttempts (state m);
     lastError := None;
     isRetrying := false;
     nextRetryDelay := nextRetryDelay (state m)
   |},
   [Invoke]).

(** [execute()] from the moment the operation settles. *)
Definition execute_settle (m : Manager) (outcome : Settled T) : Manager * Settled T :=
  match outcome with
  | Resolved value => (m, Resolved value)
  | Rejected error =>
      match ErrorHandler.processError error with
      | Throw exn => (m, Rejected exn)
      | Normal processedError =>
          (set_state m {|
             attempt := attempt (state m);
             maxAttempts := maxAttempts (state m);
             lastError := Some processedError;
             isRetrying := isRetrying (state m);
             nextRetryDelay := nextRetryDelay (state m)
           |},
           throw_EnhancedError processedError)
      end
  end.

(** [retry()] up to [await this.operation()].  The third component is the
    reason of the rejection when the call is refused; otherwise the operation
    has been invoked and is pending. *)
Definition retry_start (m : Manager) : Manager * list Event * option Value :=
  if negb (canRetry m) then (m, [], Some CannotRetry)
  else
    let attempt' := attempt (state m) + 1 in
    let m' := set_state m {|
      attempt := attempt';
      maxAttempts := maxAttempts (state m);
      lastError := lastError (state m);
      isRetrying := true;
      nextRetryDelay := calculateDelay m attempt'
    |} in
    (m',
     optional_call (fst (retryCallbacks m))
       (OnRetry attempt' (match lastError (state m) with Some e => e | None => Null end))
     ++ [Invoke],
     None).

(** [retry()] from the moment the operation settles. *)
Definition retry_settle (m : Manager) (outcome : Settled T) : Manager * list Event * Settled T :=
  match outcome with
  | Resolved result =>
      (set_state m {|
         attempt := attempt (state m);
         maxAttempts := maxAttempts (state m);
         lastError := None;
         isRetrying := false;
         nextRetryDelay := nextRetryDelay (state m)
       |},
       [], Resolved result)
  | Rejected error =>
      match ErrorHandler.processError error with
      | Throw exn => (m, [], Rejected exn)
      | Normal processedError =>
          (set_state m {|
             attempt := attempt (state m);
             maxAttempts := maxAttempts (state m);
             lastError := Some processedError;
             isRetrying := false;
             nextRetryDelay := nextRetryDelay (state m)
           |},
           if attempt (state m) >=? maxAttempts (state m)
           then optional_call (snd (retryCallbacks m)) (OnMaxAttemptsReached processedError)
           else [],
           throw_EnhancedError processedError)
      end
  end.

(** A call of [execute()] that is awaited before anything else touches the
    manager; [outcome] is how the operation settles. *)
Definition execute (m : Manager) (outcome : Settled T) : Manager * list Event * Settled T :=
  let started := execute_start m in
  let settled := execute_settle (fst started) outcome in
  (fst settled, snd started, snd settled).

(** A call of [retry()] that is awaited before anything else touches the
    manager. *)
Definition retry (m : Manager) (outcome : Settled T) : Manager * list Event * Settled T :=
  match retry_start m with
  | (m', events, Some reason) => (m', events, Rejected reason)
  | (m', events, None) =>
      match retry_settle m' outcome with
      | (m'', events', settled) => (m'', events ++ events', settled)
      end
  end.

(** What can happen to a manager, one step at a time: the two halves of
    [execute()] and of [retry()], possibly interleaved, and [reset()]. *)
Inductive Step : Type :=
| ExecuteStart
| ExecuteSettle (outcome : Settled T)
| RetryStart
| RetrySettle (outcome : Settled T)
| Reset.

Definition step (m : Manager) (s : Step) : Manager :=
  match s with
  | ExecuteStart => fst (execute_start m)
  | ExecuteSettle outcome => fst (execute_settle m outcome)
  | RetryStart => fst (fst (retry_start m))
  | RetrySettle outcome => fst (fst (retry_settle m outcome))
  | Reset => reset m
  end.

Definition run (m : Manager) (steps : list Step) : Manager := fold_left step steps m.

End Methods.

End RetryManager.

(** [RetryService.createRetryManager]: the merged options, with the two
    callbacks, go through the constructor. *)
Definition createRetryManager (options : Types.RetryOptions) : RetryManager.Manager :=
  let config := RetryService.merge options in
  RetryManager.new {|
    Types.maxAttempts := Some (RetryService.maxAttempts config);
    Types.baseDelay := Some (RetryService.baseDelay config);
    Types.backoffMultiplier := Some (RetryService.backoffMultiplier config);
    Types.retryableErrors := Some (RetryService.retryableErrors config);
    Types.onRetry := Types.onRetry options;
    Types.onMaxAttemptsReached := Types.onMaxAttemptsReached options
  |}.

(* ================================================================== *)
(** ** Vocabulary of the statements *)
(* ================================================================== *)

Module Spec.

Import Js Types.

(** The classifier returns an error of kind [t] whose flag is [retryable]. *)
Definition classified (input : Value) (t : ErrorType) (retryable : bool) : Prop :=
  exists e,
    ErrorHandler.processError input = Normal e /\
    get e "type" = ErrorType_value t /\
    get e "retryable" = Boolean retryable.

(** "The message mentions policy", read as: the word occurs in it. *)
Definition mentions_policy (message : string) : bool := string_includes message "policy".

(** The table of kinds and flags: retryable exactly for network-failure,
    rate-limited, upstream-general-failure and unknown. *)
Definition retryable_of_kind (t : ErrorType) : bool :=
  match t with
  | NETWORK_ERROR | API_RATE_LIMIT | API_GENERAL_ERROR | UNKNOWN_ERROR => true
  | _ => false
  end.

(** One invocation of the operation fails, and the failure is classified as
    [processed], retryable and of a kind the policy retries. *)
Definition fails_retryably {T : Type} (operation : RetryService.Operation T)
    (config : RetryService.Config) (k : nat) (processed : Value) : Prop :=
  exists error,
    operation k = RetryService.Rejected error /\
    ErrorHandler.processError error = Normal processed /\
    RetryService.isRetryableError processed (RetryService.retryableErrors config) = true.

(** The promise rejects with an [EnhancedError] built from [e]. *)
Definition rejects_wrapping {T : Type} (settled : RetryService.Settled T) (e : Value) : Prop :=
  exists enhanced,
    ErrorHandler.EnhancedError_new e = Normal enhanced /\
    settled = RetryService.Rejected enhanced /\
    instanceof_EnhancedError enhanced = true /\
    get enhanced "type" = get e "type" /\
    get enhanced "retryable" = get e "retryable".

(** The text the [Error] constructor stores for the message of [e]: none
    for a message that is [undefined], and the message converted otherwise,
    which can raise. *)
Definition message_text (e : Value) : Completion (option string) :=
  match get e "message" with
  | Undefined => Normal None
  | m => let! text := String_ m in Normal (Some text)
  end.

(** The message of [e] is absent or can be converted to a string, as every
    string, number and boolean can. *)
Definition message_converts (e : Value) : bool :=
  match message_text e with
  | Normal _ => true
  | Throw _ => false
  end.

(** How [throw new EnhancedError(e)] rejects: with the [EnhancedError] built
    from [e] when the message of [e] converts, and with the [TypeError] the
    constructor raises when it does not. *)
Definition rejects_from {T : Type} (settled : RetryService.Settled T) (e : Value) : Prop :=
  if message_converts e then rejects_wrapping settled e
  else settled = RetryService.Rejected TypeError.

(** The steps that neither settle a [retry()] nor start an [execute()] or a
    [reset()]: what may happen on a manager while a [retry()] is in flight
    when no other call is started on top of it. *)
Definition keeps_retry_in_flight {T : Type} (s : RetryManager.Step (T := T)) : bool :=
  match s with
  | RetryManager.ExecuteSettle _ | RetryManager.RetryStart => true
  | _ => false
  end.

(** The number of [retry()] calls that have been accepted and have not
    settled yet, along a sequence of steps from [m]; [pending] is their number
    in [m]. *)
Fixpoint retries_in_flight {platform : Platform} {T : Type} (m : RetryManager.Manager)
    (steps : list (RetryManager.Step (T := T))) (pending : nat) : nat :=
  match steps with
  | [] => pending
  | s :: rest =>
      retries_in_flight (RetryManager.step m s) rest
        match s with
        | RetryManager.RetryStart => if RetryManager.canRetry m then S pending else pending
        | RetryManager.RetrySettle _ => Nat.pred pending
        | _ => pending
        end
  end.

End Spec.

(** Concrete operations, options and managers on which the statements are
    exercised. *)
Module Examples.

Import Js Types.

(** A platform for the examples: [Math.pow] by repeated multiplication, which
    gives the base for the exponent 1 and its rounded square for the
    exponent 2. *)
#[local] Instance by_multiplication : Platform := {|
  approximate_pow base exponent :=
    match exponent with
    | Z0 => 1%float
    | Zpos n => Pos.iter (fun product => (product * base)%float) 1%float n
    | Zneg n => (1 / Pos.iter (fun product => (product * base)%float) 1%float n)%float
    end
|}.

(** An operation that rejects with the same reason at every invocation. *)
Definition always_rejecting (reason : Value) : RetryService.Operation Value :=
  fun _ => RetryService.Rejected reason.

(** Options that supply both callbacks and leave the rest to the defaults,
    apart from [maxAttempts]. *)
Definition with_callbacks (maxAttempts : option Z) : RetryOptions := {|
  Types.maxAttempts := maxAttempts;
  Types.baseDelay := None;
  Types.backoffMultiplier := None;
  Types.retryableErrors := None;
  Types.onRetry := true;
  Types.onMaxAttemptsReached := true
|}.

(** [{ maxAttempts, baseDelay, backoffMultiplier }] with both callbacks. *)
Definition policy (maxAttempts : Z) (baseDelay backoffMultiplier : float) : RetryOptions := {|
  Types.maxAttempts := Some maxAttempts;
  Types.baseDelay := Some baseDelay;
  Types.backoffMultiplier := Some backoffMultiplier;
  Types.retryableErrors := None;
  Types.onRetry := true;
  Types.onMaxAttemptsReached := true
|}.

Definition network_failure : Value := AppError NETWORK_ERROR "Network failed" true.


(** An [ApiResponse] failure whose [error] field carries the provider's error
    object instead of its text. *)
Definition structured_failure : Value :=
  Object PlainObject
    [("success", Boolean false);
     ("statusCode", Number 401);
     ("error", Object PlainObject [("message", Str "Invalid API key")])].

(** [execute()] fails; [retry()] is called and its operation stays pending;
    [execute()] is called again and fails. *)
Definition execute_over_pending_retry : list (RetryManager.Step (T := Value)) :=
  [RetryManager.ExecuteStart;
   RetryManager.ExecuteSettle (RetryService.Rejected network_failure);
   RetryManager.RetryStart;
   RetryManager.ExecuteStart;
   RetryManager.ExecuteSettle (RetryService.Rejected network_failure)].

(** The [error] text of the failure that [services/openaiService.ts] returns,
    with status 400, for a content-policy violation. *)
Definition content_policy_message : string :=
  "Content policy violation. Please modify your job description and try again.".

(** A manager whose [execute()] has failed with a network error. *)
Definition failed_once (options : RetryOptions) : RetryManager.Manager :=
  fst (fst (RetryManager.execute (T := Value) (RetryManager.new options)
              (RetryService.Rejected network_failure))).

(** The same manager while the [retry()] that follows is in flight. *)
Definition retry_in_flight (options : RetryOptions) : RetryManager.Manager :=
  fst (fst (RetryManager.retry_start (failed_once options))).

End Examples.

(* ================================================================== *)
(** ** utils/errorHandler.ts: the rest of [ErrorHandler] *)
(* ================================================================== *)

Module Handler.

Import Js Types.

(** [ERROR_MESSAGES: Record<ErrorType, string>] *)
Definition ERROR_MESSAGES (t : ErrorType) : string :=
  match t with
  | API_KEY_MISSING =>
      "OpenAI API key is not configured. Please add your API key to continue."
  | API_KEY_INVALID =>
      "The provided OpenAI API key is invalid. Please check your API key and try again."
  | NETWORK_ERROR =>
      "Unable to connect to the server. Please check your internet connection and try again."
  | API_RATE_LIMIT => "Too many requests. Please wait a moment before trying again."
  | API_CONTENT_POLICY =>
      "The content violates OpenAI's usage policies. Please modify your input and try again."
  | API_GENERAL_ERROR =>
      "An error occurred while communicating with the AI service. Please try again."
  | PDF_GENERATION_ERROR => "Failed to generate PDF. Please try again or download as text."
  | VALIDATION_ERROR => "Please check your input and correct any errors."
  | UNKNOWN_ERROR => "An unexpected error occurred. Please try again."
  end.

Definition ErrorTypes : list ErrorType :=
  [API_KEY_MISSING; API_KEY_INVALID; NETWORK_ERROR; API_RATE_LIMIT; API_CONTENT_POLICY;
   API_GENERAL_ERROR; PDF_GENERATION_ERROR; VALIDATION_ERROR; UNKNOWN_ERROR].

(** The member of [ErrorType] whose string is [key], if there is one. *)
Definition ErrorType_of_str (key : string) : option ErrorType :=
  find (fun t => String.eqb (ErrorType_str t) key) ErrorTypes.

(** The keys every object literal inherits from [Object.prototype]; what is
    found under them is a function or an accessor, which [Js.Value] does not
    represent. *)
Definition Object_prototype_keys : list string :=
  ["constructor"; "__proto__"; "hasOwnProperty"; "isPrototypeOf"; "propertyIsEnumerable";
   "toLocaleString"; "toString"; "valueOf"; "__defineGetter__"; "__defineSetter__";
   "__lookupGetter__"; "__lookupSetter__"].

(** [ERROR_MESSAGES[error.type] || error.message], for an [error] that is an
    object.  The key of the lookup is [error.type] converted to a string,
    which can raise.  [None] stands for a result outside [Js.Value]: a member
    of [Object.prototype] found by the lookup. *)
Definition getUserFriendlyMessage (error : Value) : Completion (option Value) :=
  let! key := String_ (get error "type") in
  match ErrorType_of_str key with
  | Some t => Normal (Some (or_else (Str (ERROR_MESSAGES t)) (get error "message")))
  | None =>
      if existsb (String.eqb key) Object_prototype_keys then Normal None
      else Normal (Some (or_else Undefined (get error "message")))
  end.

(** [interface RetryConfig]: the four fields of [RetryService.Config]. *)
Definition RetryConfig : Type := RetryService.Config.

(** [Partial<RetryConfig>] *)
Record PartialRetryConfig : Type := {
  maxAttempts : option Z;
  baseDelay : option float;
  backoffMultiplier : option float;
  retryableErrors : option (list ErrorType)
}.

Definition DEFAULT_RETRY_CONFIG : RetryConfig := {|
  RetryService.maxAttempts := 3;
  RetryService.baseDelay := 1000;
  RetryService.backoffMultiplier := 2;
  RetryService.retryableErrors :=
    [NETWORK_ERROR; API_RATE_LIMIT; API_GENERAL_ERROR; UNKNOWN_ERROR]
|}.

(** [constructor(retryConfig)]: [{ ...DEFAULT_RETRY_CONFIG, ...retryConfig }].
    An [ErrorHandler] has no other field, so it is its configuration. *)
Definition new (retryConfig : PartialRetryConfig) : RetryConfig := {|
  RetryService.maxAttempts :=
    RetryService.spread (RetryService.maxAttempts DEFAULT_RETRY_CONFIG) (maxAttempts retryConfig);
  RetryService.baseDelay :=
    RetryService.spread (RetryService.baseDelay DEFAULT_RETRY_CONFIG) (baseDelay retryConfig);
  RetryService.backoffMultiplier :=
    RetryService.spread (RetryService.backoffMultiplier DEFAULT_RETRY_CONFIG)
      (backoffMultiplier retryConfig);
  RetryService.retryableErrors :=
    RetryService.spread (RetryService.retryableErrors DEFAULT_RETRY_CONFIG)
      (retryableErrors retryConfig)
|}.

Definition isRetryable (this : RetryConfig) (error : Value) : bool :=
  truthy (get error "retryable") &&
  ErrorTypes_includes (RetryService.retryableErrors this) (get error "type").

Definition calculateRetryDelay {platform : Platform} (this : RetryConfig)
    (attemptNumber : Z) : float :=
  (RetryService.baseDelay this
   * Math_pow (RetryService.backoffMultiplier this) (attemptNumber - 1))%float.

(** What [withRetry] does that can be observed: invocations of the operation,
    the [console.warn] before a retry (kept as the values it prints) and the
    timer. *)
Inductive Event : Type :=
| Invoke
| Warn (context : string) (attempt maxAttempts : Z) (delay : float) (error : Value)
| Delay (ms : float).

(** How the [for] loop of [withRetry] is left: by the [return] (or by an
    exception that escapes the [catch] block), or past its end, after a
    [break] or when its condition fails. *)
Inductive LoopExit (T : Type) : Type :=
| Returned (settled : RetryService.Settled T)
| Fell (lastError : Value).

Arguments Returned {T} settled.
Arguments Fell {T} lastError.

Section WithRetry.

Context {platform : Platform} {T : Type}.
Variable this : RetryConfig.
Variable operation : RetryService.Operation T.
Variable context : string.

(** The loop, with the same reading of [remaining], [attempt] and [calls] as
    in [RetryService.attempts]. *)
Fixpoint loop (remaining : nat) (attempt : Z) (lastError : Value) (calls : nat)
  : list Event * LoopExit T :=
  match remaining with
  | O => ([], Fell lastError)
  | S remaining' =>
      match operation calls with
      | RetryService.Resolved value => ([Invoke], Returned (RetryService.Resolved value))
      | RetryService.Rejected error =>
          match ErrorHandler.processError error with
          | Throw exn => ([Invoke], Returned (RetryService.Rejected exn))
          | Normal processedError =>
              if negb (isRetryable this processedError)
                 || (attempt =? RetryService.maxAttempts this)
              then ([Invoke], Fell processedError)
              else
                let delay := calculateRetryDelay this attempt in
                let rest := loop remaining' (attempt + 1) processedError (S calls) in
                (Invoke
                   :: Warn context attempt (RetryService.maxAttempts this) delay processedError
                   :: Delay delay :: fst rest,
                 snd rest)
          end
      end
  end.

Definition withRetry : list Event * RetryService.Settled T :=
  let run := loop (Z.to_nat (RetryService.maxAttempts this)) 1 Null 0 in
  (fst run,
   match snd run with
   | Returned settled => settled
   | Fell lastError => RetryService.throw_EnhancedError lastError
   end).

End WithRetry.

End Handler.

(* ================================================================== *)
(** ** services/openaiService.ts: how a failure of the generation call is
       reported and converted *)
(* ================================================================== *)

Module OpenAIService.

Import Js Types.

(** [recv?.includes(sub)] where [recv] is itself read with [?.]: [undefined]
    when [recv] is [null] or [undefined] (falsy, [false] here), the result of
    the method on a string, and a [TypeError] on the other values, which have
    no such method. *)
Definition optional_includes (recv : Value) (sub : string) : Completion bool :=
  match recv with
  | Undefined | Null => Normal false
  | Str s => Normal (string_includes s sub)
  | _ => Throw TypeError
  end.

(** An [ApiResponse] literal [{ success: false, error, statusCode }]. *)
Definition failure (error : string) (statusCode : Value) : Value :=
  Object PlainObject
    [("success", Boolean false); ("error", Str error); ("statusCode", statusCode)].

(** [v === 'text'] *)
Definition is_string (v : Value) (text : string) : bool :=
  match v with
  | Str s => String.eqb s text
  | _ => false
  end.

(** [v === n] for a number literal [n] *)
Definition is_number (v : Value) (n : Z) : bool :=
  match v with
  | Number m => m =? n
  | _ => false
  end.

(** [handleApiError(error: any)].  For the keys read here, [error?.key] is
    [Js.get]: [undefined] on [null], [undefined] and the primitives. *)
Definition handleApiError (error : Value) : Completion Value :=
  if truthy (get error "error") then
    let errorMessage := or_else (get (get error "error") "message") (Str "Unknown API error") in
    let errorType := or_else (get (get error "error") "type") (Str "") in
    let statusCode :=
      or_else (or_else (get error "statusCode") (get error "status")) (Number 500) in
    if is_number statusCode 401 || is_string errorType "invalid_api_key" then
      Normal (failure "Invalid API key. Please check your OpenAI API key configuration."
                (Number 401))
    else if is_number statusCode 429 || is_string errorType "rate_limit_exceeded" then
      Normal (failure "Rate limit exceeded. Please wait a moment before trying again."
                (Number 429))
    else if is_number statusCode 400 && is_string errorType "content_policy_violation" then
      Normal (failure
                "Content policy violation. Please modify your job description and try again."
                (Number 400))
    else
      let! text := String_ errorMessage in
      Normal (failure ("API Error: " ++ text)%string statusCode)
  else
    let! network :=
      if is_string (get error "code") "NETWORK_ERROR" then Normal true
      else optional_includes (get error "message") "network" in
    if network then
      Normal (failure "Network error. Please check your internet connection and try again."
                (Number 0))
    else
      let! timeout :=
        if is_string (get error "code") "ECONNABORTED" then Normal true
        else optional_includes (get error "message") "timeout" in
      if timeout then Normal (failure "Request timeout. Please try again." (Number 408))
      else
        let errorMessage := or_else (get error "message") (Str "An unexpected error occurred") in
        let! text := String_ errorMessage in
        Normal (failure ("Unexpected error: " ++ text)%string (Number 500)).

(** [static responseToAppError(response)] *)
Definition responseToAppError (response : Value) : Completion Value :=
  let statusCode := or_else (get response "statusCode") (Number 500) in
  let message := or_else (get response "error") (Str "Unknown error") in
  let result (errorType : ErrorType) (retryable : bool) : Completion Value :=
    Normal (Object PlainObject
      [("type", ErrorType_value errorType);
       ("message", message);
       ("code", statusCode);
       ("retryable", Boolean retryable)]) in
  let default : Completion Value :=
    let! network := call_includes message "Network error" in
    result (if network then NETWORK_ERROR else API_GENERAL_ERROR) true in
  match statusCode with
  | Number n =>
      if n =? 401 then
        let! key := call_includes message "API key" in
        result (if key then API_KEY_INVALID else API_KEY_MISSING) false
      else if n =? 429 then result API_RATE_LIMIT true
      else if n =? 400 then
        let! policy := call_includes message "Content policy violation" in
        result (if policy then API_CONTENT_POLICY else VALIDATION_ERROR) false
      else if n =? 0 then result NETWORK_ERROR true
      else if n =? 408 then result NETWORK_ERROR true
      else default
  | _ => default
  end.

(** What the application throws when the generation call reports a failure:
    [throw OpenAIService.responseToAppError(response)], with the [response]
    that [handleApiError] built from what the provider's client raised. *)
Definition reported (raised : Value) : Completion Value :=
  let! response := handleApiError raised in
  responseToAppError response.

End OpenAIService.

(** Sequences of calls on a manager and what they make observable. *)
Module Scenario.

Import Js Types.

Section Calls.

Context {platform : Platform} {T : Type}.

(** [retry()] called and awaited once for each of the [outcomes], whether it
    is accepted or refused; the manager at the end and the events of all the
    calls. *)
Fixpoint retry_each (m : RetryManager.Manager) (outcomes : list (RetryService.Settled T))
  : RetryManager.Manager * list RetryService.Event :=
  match outcomes with
  | [] => (m, [])
  | outcome :: rest =>
      let called := RetryManager.retry m outcome in
      let later := retry_each (fst (fst called)) rest in
      (fst later, snd (fst called) ++ snd later)
  end.

(** On a new manager, [execute()] awaited, then [retry()] awaited for each of
    the [outcomes]. *)
Definition execute_then_retry (options : RetryOptions) (first : RetryService.Settled T)
    (outcomes : list (RetryService.Settled T))
  : RetryManager.Manager * list RetryService.Event :=
  let executed := RetryManager.execute (RetryManager.new options) first in
  let later := retry_each (fst (fst executed)) outcomes in
  (fst later, snd (fst executed) ++ snd later).

(** The operation rejects, and the manager [m] classifies the failure as
    [processed], retryable and of a kind it retries. *)
Definition fails_retryably (m : RetryManager.Manager) (outcome : RetryService.Settled T)
    (processed : Value) : Prop :=
  exists error,
    outcome = RetryService.Rejected error /\
    ErrorHandler.processError error = Normal processed /\
    RetryManager.isRetryableError m processed = true.

End Calls.

(** The engine's view of a trace of [ErrorHandler.withRetry]: the warnings
    are dropped. *)
Fixpoint without_warnings (trace : list Handler.Event) : list RetryService.Event :=
  match trace with
  | [] => []
  | Handler.Invoke :: rest => RetryService.Invoke :: without_warnings rest
  | Handler.Warn _ _ _ _ _ :: rest => without_warnings rest
  | Handler.Delay ms :: rest => RetryService.Delay ms :: without_warnings rest
  end.

(** The options of [executeWithRetry] that carry a partial configuration and
    no callback. *)
Definition as_options (retryConfig : Handler.PartialRetryConfig) : RetryOptions := {|
  Types.maxAttempts := Handler.maxAttempts retryConfig;
  Types.baseDelay := Handler.baseDelay retryConfig;
  Types.backoffMultiplier := Handler.backoffMultiplier retryConfig;
  Types.retryableErrors := Handler.retryableErrors retryConfig;
  Types.onRetry := false;
  Types.onMaxAttemptsReached := false
|}.

(** An operation that fails with the [failures] in turn and then resolves
    with [value] for good. *)
Definition failing_then (failures : list Value) (value : Value)
  : RetryService.Operation Value :=
  fun k =>
    match nth_error failures k with
    | Some reason => RetryService.Rejected reason
    | None => RetryService.Resolved value
    end.

(** The shapes one iteration of the loop can take. *)
Inductive iteration {platform : Platform} {T : Type} (operation : RetryService.Operation T)
    (options : RetryOptions) (remaining : nat) (attempt : Z) (last : Value) (calls : nat)
  : Prop :=
| resolves (value : T)
    (Hop : operation calls = RetryService.Resolved value)
    (Hrun : RetryService.attempts operation options (S remaining) attempt last calls
            = ([RetryService.Invoke], RetryService.Resolved value))
| unclassified (error : Value)
    (Hop : operation calls = RetryService.Rejected error)
    (Hclass : ErrorHandler.processError error = Throw TypeError)
    (Hrun : RetryService.attempts operation options (S remaining) attempt last calls
            = ([RetryService.Invoke], RetryService.Rejected TypeError))
| gives_up (error processed : Value)
    (Hop : operation calls = RetryService.Rejected error)
    (Hclass : ErrorHandler.processError error = Normal processed)
    (Hretry : RetryService.isRetryableError processed
                (RetryService.retryableErrors (RetryService.merge options)) = false)
    (Hrun : RetryService.attempts operation options (S remaining) attempt last calls
            = ([RetryService.Invoke], RetryService.throw_EnhancedError processed))
| exhausted (processed : Value)
    (Hfail : Spec.fails_retryably operation (RetryService.merge options) calls processed)
    (Hmax : attempt = RetryService.maxAttempts (RetryService.merge options))
    (Hrun : RetryService.attempts operation options (S remaining) attempt last calls
            = (RetryService.Invoke
                 :: RetryService.optional_call (onMaxAttemptsReached options)
                      (RetryService.OnMaxAttemptsReached processed),
               RetryService.throw_EnhancedError processed))
| retries (processed : Value)
    (Hfail : Spec.fails_retryably operation (RetryService.merge options) calls processed)
    (Hmax : attempt <> RetryService.maxAttempts (RetryService.merge options))
    (Hrun : RetryService.attempts operation options (S remaining) attempt last calls
            = (RetryService.Invoke
                 :: RetryService.optional_call (onRetry options)
                      (RetryService.OnRetry attempt processed)
                 ++ RetryService.Delay
                      (RetryService.calculateDelay attempt
                         (RetryService.baseDelay (RetryService.merge options))
                         (RetryService.backoffMultiplier (RetryService.merge options)))
                 :: fst (RetryService.attempts operation options remaining (attempt + 1)
                           processed (S calls)),
               snd (RetryService.attempts operation options remaining (attempt + 1)
                      processed (S calls)))).

(** The snapshot keeps the [maxAttempts] of the options, and [attempt] stays
    between 0 and it. *)
Definition attempt_in_range (m : RetryManager.Manager) : Prop :=
  RetryManager.maxAttempts (RetryManager.getState m)
  = RetryService.maxAttempts (RetryManager.options m) /\
  0 <= RetryManager.attempt (RetryManager.getState m)
    <= RetryManager.maxAttempts (RetryManager.getState m).

(** [{ retryableErrors: [ErrorType.API_RATE_LIMIT] }], with both callbacks. *)
Definition only_rate_limit : RetryOptions := {|
  Types.maxAttempts := None;
  Types.baseDelay := None;
  Types.backoffMultiplier := None;
  Types.retryableErrors := Some [API_RATE_LIMIT];
  Types.onRetry := true;
  Types.onMaxAttemptsReached := true
|}.

End Scenario.

(* ================================================================== *)
(** ** The classifier *)
(* ================================================================== *)

Import Js Types Examples.
Import Scenario (only_rate_limit).

Lemma or_else_Str (msg default : string) :
  or_else (Str msg) (Str default) = Str (if String.eqb msg "" then default else msg).
Proof.
  unfold or_else, truthy. destruct (String.eqb msg ""); reflexivity.
Qed.

(** An [ApiResponse] failure goes through [processApiResponseError]. *)
Lemma processError_ApiFailure (n : Z) (msg : string) :
  ErrorHandler.processError (ApiFailure n msg)
  = ErrorHandler.processApiResponseError (ApiFailure n msg).
Proof. reflexivity. Qed.

Lemma message_includes_default (msg sub : string) :
  string_includes "Unknown API error" sub = false ->
  string_includes (if String.eqb msg "" then "Unknown API error" else msg) sub
  = string_includes msg sub.
Proof.
  intros Hdefault. destruct (String.eqb_spec msg "") as [-> | _]; [ | reflexivity ].
  rewrite Hdefault. destruct sub; [ discriminate Hdefault | reflexivity ].
Qed.

(** The branches of the [switch] on a numeric status code. *)
Ltac status_cases n :=
  destruct (n =? 401);
  [ | destruct (n =? 429);
      [ | destruct (n =? 400);
          [ | destruct ((n =? 0) || (n =? 408)) ] ] ].

(** The outcomes of the four substring tests that [processJavaScriptError]
    makes on a message that is the string [s]. *)
Ltac message_cases s :=
  unfold ErrorHandler.processJavaScriptError, ErrorHandler.includes_either;
  cbn [bind call_includes];
  destruct (string_includes s "fetch"); cbn [bind call_includes];
  [ | destruct (string_includes s "network"); cbn [bind call_includes];
      [ | destruct (string_includes s "validation"); cbn [bind call_includes];
          [ | destruct (string_includes s "required"); cbn [bind call_includes] ] ] ].

Ltac returned := eexists; reflexivity.

(** *** Conversions to a string *)

(** The conversion of an object, by cases. *)
Lemma String_Object (cls : Class) (props : list (string * Value)) :
  String_ (Object cls props)
  = match own props "toString" with
    | Some _ => Throw TypeError
    | None =>
        match cls with
        | PlainObject => Normal "[object Object]"
        | ErrorObject | EnhancedErrorObject =>
            let! name := property_text props "name" "Error" in
            let! msg := property_text props "message" "" in
            Normal (if String.eqb name "" then msg
                    else if String.eqb msg "" then name
                    else (name ++ ": " ++ msg)%string)
        end
    end.
Proof.
  cbn [String_].
  match goal with
  | |- context [ ?converted props "name" ] =>
      assert (Hconverted : forall key,
                converted props key
                = match own props key with
                  | Some x => Some (x, String_ x)
                  | None => None
                  end)
  end.
  { intros key. induction props as [ | [k x] rest IH ]; [ reflexivity | ].
    cbn [own]. destruct (String.eqb k key); [ reflexivity | exact IH ]. }
  destruct (own props "toString"); [ reflexivity | ].
  destruct cls; [ reflexivity | | ];
    rewrite !Hconverted; unfold property_text;
    destruct (own props "name") as [ [ | | | | | ] | ],
             (own props "message") as [ [ | | | | | ] | ]; reflexivity.
Qed.

Lemma own_Forall (P : Value -> Prop) (props : list (string * Value)) (key : string)
    (x : Value) :
  Forall (fun entry => P (snd entry)) props -> own props key = Some x -> P x.
Proof.
  induction 1 as [ | [k y] rest Hy _ IH ]; [ discriminate | ].
  cbn [own]. destruct (String.eqb k key); [ intros [= <-]; exact Hy | exact IH ].
Qed.

(** A conversion raises nothing but the engine's [TypeError]. *)
Lemma String_throws_only_TypeError (v exn : Value) :
  String_ v = Throw exn -> exn = TypeError.
Proof.
  revert exn. induction v as [ | | b | n | s | cls props IH ] using Value_nested_ind;
    intros exn; try discriminate; try (destruct b; discriminate).
  rewrite String_Object.
  destruct (own props "toString"); [ intros [= <-]; reflexivity | ].
  assert (Htext : forall key default e,
            property_text props key default = Throw e -> e = TypeError).
  { intros key default e. unfold property_text.
    destruct (own props key) as [ x | ] eqn:Hown; [ | discriminate ].
    pose proof (own_Forall (fun v => forall exn, String_ v = Throw exn -> exn = TypeError)
                  props key x IH Hown) as Hx.
    destruct x; try discriminate; apply Hx. }
  destruct cls; [ discriminate | | ];
    (destruct (property_text props "name" "Error") eqn:Hname; cbn [bind];
     [ destruct (property_text props "message" "") eqn:Hmsg; cbn [bind];
       [ discriminate | intros [= <-]; exact (Htext _ _ _ Hmsg) ]
     | intros [= <-]; exact (Htext _ _ _ Hname) ]).
Qed.

(** A primitive value always converts. *)
Lemma String_primitive (v : Value) :
  typeof_object v = false -> exists text, String_ v = Normal text.
Proof.
  destruct v as [ | | [ | ] | | | ]; try discriminate; intros _; returned.
Qed.

(** *** The classifier *)

(** Whatever [processError] returns is an object, never [null] or a primitive. *)
Lemma processError_returns_object (input e : Value) :
  ErrorHandler.processError input = Normal e ->
  exists cls props, e = Object cls props.
Proof.
  unfold ErrorHandler.processError.
  destruct (instanceof_EnhancedError input).
  { intros [= <-]. unfold ErrorHandler.toAppError. eauto. }
  destruct (ErrorHandler.isAppError input) eqn:Happ.
  { intros [= <-]. destruct input; try discriminate Happ. eauto. }
  destruct (ErrorHandler.isApiResponse input && negb (truthy (get input "success"))).
  { unfold ErrorHandler.processApiResponseError.
    destruct (get input "statusCode") as [ | | | n | | ]; try (intros [= <-]; eauto).
    status_cases n; try (intros [= <-]; eauto);
      (destruct (call_includes _ _); cbn [bind]; [ intros [= <-]; eauto | discriminate ]). }
  destruct (instanceof_Error input);
    [ | destruct (String_ input); cbn [bind]; [ intros [= <-]; eauto | discriminate ] ].
  destruct (get input "message") as [ | | | | s | ] eqn:Hmsg;
    try (unfold ErrorHandler.processJavaScriptError; rewrite Hmsg; discriminate).
  unfold ErrorHandler.processJavaScriptError. rewrite Hmsg.
  message_cases s; intros [= <-]; eauto.
Qed.

(** The classifier raises nothing but the engine's [TypeError]. *)
Lemma processError_throws_only_TypeError (input exn : Value) :
  ErrorHandler.processError input = Throw exn -> exn = TypeError.
Proof.
  unfold ErrorHandler.processError.
  destruct (instanceof_EnhancedError input); [ discriminate | ].
  destruct (ErrorHandler.isAppError input); [ discriminate | ].
  destruct (ErrorHandler.isApiResponse input && negb (truthy (get input "success"))).
  { unfold ErrorHandler.processApiResponseError.
    destruct (get input "statusCode") as [ | | | n | | ]; try discriminate.
    status_cases n; try discriminate;
      (destruct (or_else _ _); cbn; try discriminate; intros [= <-]; reflexivity). }
  destruct (instanceof_Error input).
  2: { destruct (String_ input) eqn:Hconverted; cbn [bind]; [ discriminate | ].
       intros [= <-]. exact (String_throws_only_TypeError _ _ Hconverted). }
  destruct (get input "message") as [ | | | | s | ] eqn:Hmsg;
    unfold ErrorHandler.processJavaScriptError; rewrite Hmsg;
    try (cbn; intros [= <-]; reflexivity).
  message_cases s; discriminate.
Qed.

(** Where the classifier does return: on every primitive value, on every
    [ApiResponse] failure whose [error] is a string, on every native [Error]
    built from a string, and more generally whenever the texts it searches
    are strings and the input, when it reaches the last branch, can be
    converted to a string. *)
Lemma processError_returns_on_primitives (input : Value) :
  typeof_object input = false ->
  exists e, ErrorHandler.processError input = Normal e.
Proof.
  destruct input as [ | | [ | ] | | | ]; try discriminate; intros _; returned.
Qed.

Lemma processError_returns_on_ApiFailure (n : Z) (msg : string) :
  exists e, ErrorHandler.processError (ApiFailure n msg) = Normal e.
Proof.
  rewrite processError_ApiFailure. unfold ErrorHandler.processApiResponseError.
  change (get (ApiFailure n msg) "statusCode") with (Number n).
  change (get (ApiFailure n msg) "error") with (Str msg).
  rewrite or_else_Str. cbn.
  status_cases n; returned.
Qed.

Lemma processError_returns_on_Error (msg : string) :
  exists e, ErrorHandler.processError (Error_new msg) = Normal e.
Proof.
  change (ErrorHandler.processError (Error_new msg))
    with (ErrorHandler.processJavaScriptError (Error_new msg)).
  unfold ErrorHandler.processJavaScriptError.
  change (get (Error_new msg) "message") with (Str msg).
  message_cases msg; returned.
Qed.

Lemma processError_returns_on_string_messages (input : Value) :
  (Js.instanceof_Error input = true -> exists s, get input "message" = Str s) ->
  (ErrorHandler.isApiResponse input = true ->
   exists s, or_else (get input "error") (Str "Unknown API error") = Str s) ->
  (exists text, String_ input = Normal text) ->
  exists e, ErrorHandler.processError input = Normal e.
Proof.
  intros Hmessage Herror (text & Htext). unfold ErrorHandler.processError.
  rewrite Htext. cbn [bind].
  destruct (instanceof_EnhancedError input); [ returned | ].
  destruct (ErrorHandler.isAppError input); [ returned | ].
  assert (Hnative : instanceof_Error input = true ->
                    exists e, ErrorHandler.processJavaScriptError input = Normal e).
  { intros Hinst. destruct (Hmessage Hinst) as (t & Ht).
    unfold ErrorHandler.processJavaScriptError. rewrite Ht.
    message_cases t; returned. }
  destruct (ErrorHandler.isApiResponse input) eqn:Hresponse; cbn [andb].
  - destruct (Herror eq_refl) as (s & Hs).
    destruct (negb (truthy (get input "success"))).
    + unfold ErrorHandler.processApiResponseError. rewrite Hs.
      destruct (get input "statusCode") as [ | | | n | | ]; try returned.
      status_cases n; returned.
    + destruct (instanceof_Error input); [ now apply Hnative | returned ].
  - destruct (instanceof_Error input); [ now apply Hnative | returned ].
Qed.

(** C4.  The classifier is not total.  On an [ApiResponse] failure with status
    401 whose [error] field carries an object instead of a string (as a
    provider's error body does), [message.includes] is not a function and
    [processError] raises a [TypeError] instead of returning an [AppError]. *)
Theorem processError_raises_on_structured_error_field :
  structured_failure
  = Object PlainObject
      [("success", Boolean false);
       ("statusCode", Number 401);
       ("error", Object PlainObject [("message", Str "Invalid API key")])] /\
  ErrorHandler.processError structured_failure = Throw TypeError.
Proof. split; reflexivity. Qed.

(** The [TypeError] is raised inside the [catch] block of [executeWithRetry]
    and of the manager's [execute()], so it is what their promise rejects
    with, in place of an [EnhancedError]. *)
Lemma classifier_failure_escapes {platform : Platform} :
  RetryService.executeWithRetry (always_rejecting structured_failure) (with_callbacks None)
  = ([RetryService.Invoke], RetryService.Rejected TypeError) /\
  snd (RetryManager.execute (RetryManager.new (with_callbacks None))
         (RetryService.Rejected (T := Value) structured_failure))
  = RetryService.Rejected TypeError.
Proof. split; reflexivity. Qed.

Lemma classified_ApiFailure_401 (msg : string) :
  Spec.classified (ApiFailure 401 msg)
    (if string_includes msg "API key" then API_KEY_INVALID else API_KEY_MISSING) false.
Proof.
  unfold Spec.classified. rewrite processError_ApiFailure.
  unfold ErrorHandler.processApiResponseError.
  change (get (ApiFailure 401 msg) "statusCode") with (Number 401).
  change (get (ApiFailure 401 msg) "error") with (Str msg).
  rewrite or_else_Str. cbn [Z.eqb Pos.eqb call_includes bind].
  rewrite message_includes_default by reflexivity.
  eexists. split; [ reflexivity | ].
  destruct (string_includes msg "API key"); split; reflexivity.
Qed.

Lemma classified_ApiFailure_400 (msg : string) :
  Spec.classified (ApiFailure 400 msg)
    (if string_includes msg "content policy" then API_CONTENT_POLICY else VALIDATION_ERROR) false.
Proof.
  unfold Spec.classified. rewrite processError_ApiFailure.
  unfold ErrorHandler.processApiResponseError.
  change (get (ApiFailure 400 msg) "statusCode") with (Number 400).
  change (get (ApiFailure 400 msg) "error") with (Str msg).
  rewrite or_else_Str. cbn [Z.eqb Pos.eqb call_includes bind].
  rewrite message_includes_default by reflexivity.
  eexists. split; [ reflexivity | ].
  destruct (string_includes msg "content policy"); split; reflexivity.
Qed.

Lemma classified_ApiFailure_other (n : Z) (msg : string) :
  n <> 401 -> n <> 429 -> n <> 400 -> n <> 0 -> n <> 408 ->
  Spec.classified (ApiFailure n msg) API_GENERAL_ERROR true.
Proof.
  intros H401 H429 H400 H0 H408.
  unfold Spec.classified. rewrite processError_ApiFailure.
  unfold ErrorHandler.processApiResponseError.
  change (get (ApiFailure n msg) "statusCode") with (Number n).
  lazy beta zeta iota.
  apply Z.eqb_neq in H401, H429, H400, H0, H408.
  rewrite H401, H429, H400, H0, H408. cbn [orb].
  eexists. split; [ reflexivity | split; reflexivity ].
Qed.

(** The mapping of status codes, with the tests the code makes on the
    message: 401 gives API_KEY_INVALID when the message contains the substring
    "API key" and API_KEY_MISSING otherwise, not retryable; 429 gives
    API_RATE_LIMIT, retryable; 0 and 408 give NETWORK_ERROR, retryable; 400
    gives API_CONTENT_POLICY when the message contains the substring
    "content policy" and VALIDATION_ERROR otherwise, not retryable; any other
    status code, and a missing one, gives API_GENERAL_ERROR, retryable. *)
Lemma status_code_mapping (msg : string) (n : Z) :
  n <> 401 /\ n <> 429 /\ n <> 400 /\ n <> 0 /\ n <> 408 ->
  Spec.classified (ApiFailure 401 "Invalid API key") API_KEY_INVALID false /\
  Spec.classified (ApiFailure 401 msg)
    (if string_includes msg "API key" then API_KEY_INVALID else API_KEY_MISSING) false /\
  Spec.classified (ApiFailure 429 msg) API_RATE_LIMIT true /\
  Spec.classified (ApiFailure 0 msg) NETWORK_ERROR true /\
  Spec.classified (ApiFailure 408 msg) NETWORK_ERROR true /\
  Spec.classified (ApiFailure 400 msg)
    (if string_includes msg "content policy" then API_CONTENT_POLICY else VALIDATION_ERROR)
    false /\
  Spec.classified (ApiFailure n msg) API_GENERAL_ERROR true /\
  Spec.classified (ApiFailure_no_status msg) API_GENERAL_ERROR true.
Proof.
  intros (H401 & H429 & H400 & H0 & H408).
  split; [ apply (classified_ApiFailure_401 "Invalid API key") | ].
  split; [ apply classified_ApiFailure_401 | ].
  split; [ eexists; split; [ reflexivity | split; reflexivity ] | ].
  split; [ eexists; split; [ reflexivity | split; reflexivity ] | ].
  split; [ eexists; split; [ reflexivity | split; reflexivity ] | ].
  split; [ apply classified_ApiFailure_400 | ].
  split; [ apply classified_ApiFailure_other; assumption | ].
  eexists; split; [ reflexivity | split; reflexivity ].
Qed.

(** When the message does not mention policy at all, status 400 gives
    VALIDATION_ERROR. *)
Lemma string_includes_suffix (s sub : string) (c : Ascii.ascii) :
  string_includes s (String c sub) = true -> string_includes s sub = true.
Proof.
  induction s as [ | d s IH ]; [ discriminate | ].
  cbn [string_includes String.prefix]. intros H.
  apply orb_true_iff in H. apply orb_true_iff. right. destruct H as [H | H].
  - destruct (Ascii.ascii_dec c d); [ | discriminate H ].
    destruct s; cbn [string_includes]; rewrite H; reflexivity.
  - apply IH in H. exact H.
Qed.

Lemma no_policy_mention_gives_validation (msg : string) :
  Spec.mentions_policy msg = false ->
  Spec.classified (ApiFailure 400 msg) VALIDATION_ERROR false.
Proof.
  intros Hnone. pose proof (classified_ApiFailure_400 msg) as H.
  destruct (string_includes msg "content policy") eqn:Hcp; [ | exact H ].
  unfold Spec.mentions_policy in Hnone.
  do 8 apply string_includes_suffix in Hcp. congruence.
Qed.

(** C5.  The mapping fails on status 400.  The failure the generation service
    returns for a content-policy violation,
    [{ success: false, error: 'Content policy violation. Please modify your
    job description and try again.', statusCode: 400 }], mentions policy, and
    the classifier gives it the kind VALIDATION_ERROR, not
    API_CONTENT_POLICY: the test is the case-sensitive substring
    "content policy". *)
Theorem content_policy_failure_classified_as_validation :
  Spec.mentions_policy content_policy_message = true /\
  Spec.classified (ApiFailure 400 content_policy_message) VALIDATION_ERROR false /\
  ~ Spec.classified (ApiFailure 400 content_policy_message) API_CONTENT_POLICY false.
Proof.
  split; [ reflexivity | ].
  split; [ eexists; split; [ reflexivity | split; reflexivity ] | ].
  intros (e & Hrun & Htype & _).
  cbv in Hrun. injection Hrun as <-. discriminate Htype.
Qed.

(** An error the classifier builds itself carries the flag of its kind. *)
Lemma built_error_flag (input e : Value) :
  instanceof_EnhancedError input = false ->
  ErrorHandler.isAppError input = false ->
  ErrorHandler.processError input = Normal e ->
  exists t,
    get e "type" = ErrorType_value t /\
    get e "retryable" = Boolean (Spec.retryable_of_kind t) /\
    t <> PDF_GENERATION_ERROR.
Proof.
  intros Henh Happ. unfold ErrorHandler.processError. rewrite Henh, Happ.
  destruct (ErrorHandler.isApiResponse input && negb (truthy (get input "success"))).
  { unfold ErrorHandler.processApiResponseError.
    destruct (get input "statusCode") as [ | | | n | | ];
      try (intros [= <-]; exists API_GENERAL_ERROR; repeat split; discriminate).
    status_cases n.
    - destruct (call_includes _ _) as [ [ | ] | ]; cbn [bind]; try discriminate;
        intros [= <-]; [ exists API_KEY_INVALID | exists API_KEY_MISSING ];
        repeat split; discriminate.
    - intros [= <-]. exists API_RATE_LIMIT. repeat split; discriminate.
    - destruct (call_includes _ _) as [ [ | ] | ]; cbn [bind]; try discriminate;
        intros [= <-]; [ exists API_CONTENT_POLICY | exists VALIDATION_ERROR ];
        repeat split; discriminate.
    - intros [= <-]. exists NETWORK_ERROR. repeat split; discriminate.
    - intros [= <-]. exists API_GENERAL_ERROR. repeat split; discriminate. }
  destruct (instanceof_Error input);
    [ | destruct (String_ input); cbn [bind]; [ | discriminate ];
        intros [= <-]; exists UNKNOWN_ERROR; repeat split; discriminate ].
  destruct (get input "message") as [ | | | | s | ] eqn:Hmsg;
    unfold ErrorHandler.processJavaScriptError; rewrite Hmsg; try discriminate.
  message_cases s; intros [= <-];
    [ exists NETWORK_ERROR | exists NETWORK_ERROR
    | exists VALIDATION_ERROR | exists VALIDATION_ERROR | exists UNKNOWN_ERROR ];
    repeat split; discriminate.
Qed.

Lemma ErrorType_value_inj (t u : ErrorType) :
  ErrorType_value t = ErrorType_value u -> t = u.
Proof. destruct t, u; intros H; try reflexivity; discriminate H. Qed.

(** C9 (as amended).  For every input that is neither an [EnhancedError] nor
    an object with the three keys of an [AppError] (those two are handed back
    as they are), the error the classifier builds has a flag that is a
    function of its kind alone: true for NETWORK_ERROR, API_RATE_LIMIT,
    API_GENERAL_ERROR and UNKNOWN_ERROR, false for API_KEY_MISSING,
    API_KEY_INVALID, API_CONTENT_POLICY and VALIDATION_ERROR; so two such
    outputs of the same kind have the same flag.  The classifier takes the
    failure alone: no attempt count or clock enters it. *)
Theorem built_errors_flag_follows_kind (a b ea eb : Value)
  (Ha : instanceof_EnhancedError a = false /\ ErrorHandler.isAppError a = false)
  (Hb : instanceof_EnhancedError b = false /\ ErrorHandler.isAppError b = false)
  (Hea : ErrorHandler.processError a = Normal ea)
  (Heb : ErrorHandler.processError b = Normal eb) :
  (exists t, get ea "type" = ErrorType_value t /\
             get ea "retryable" = Boolean (Spec.retryable_of_kind t) /\
             t <> PDF_GENERATION_ERROR) /\
  (get ea "type" = get eb "type" -> get ea "retryable" = get eb "retryable").
Proof.
  destruct Ha as [Ha1 Ha2], Hb as [Hb1 Hb2].
  destruct (built_error_flag a ea Ha1 Ha2 Hea) as (t & Ht & Hr & Hpdf).
  destruct (built_error_flag b eb Hb1 Hb2 Heb) as (u & Hu & Hs & _).
  split; [ exists t; auto | ].
  intros Hsame. rewrite Ht, Hu in Hsame. apply ErrorType_value_inj in Hsame.
  subst u. congruence.
Qed.

Lemma built_errors_flag_follows_kind_witness :
  get (Object PlainObject
         [("type", Str "NETWORK_ERROR"); ("message", Str "Network connection failed");
          ("details", Str "fetch failed"); ("retryable", Boolean true)]) "retryable"
  = get (Object PlainObject
         [("type", Str "NETWORK_ERROR"); ("message", Str "timeout");
          ("code", Number 408); ("retryable", Boolean true)]) "retryable".
Proof.
  exact (proj2 (built_errors_flag_follows_kind
    (Error_new "fetch failed") (ApiFailure 408 "timeout") _ _
    (conj eq_refl eq_refl) (conj eq_refl eq_refl) eq_refl eq_refl) eq_refl).
Defined.

(** C9 (as stated) fails on the pass-through branch: two [AppError] inputs of
    kind NETWORK_ERROR are returned as they are, one flagged retryable and
    one not, although the table makes NETWORK_ERROR retryable. *)
Lemma passed_through_flag_independent_of_kind :
  Spec.classified (AppError NETWORK_ERROR "Network failed" true) NETWORK_ERROR true /\
  Spec.classified (AppError NETWORK_ERROR "Network failed" false) NETWORK_ERROR false /\
  Spec.retryable_of_kind NETWORK_ERROR = true.
Proof.
  split; [ eexists; split; [ reflexivity | split; reflexivity ] | ].
  split; [ eexists; split; [ reflexivity | split; reflexivity ] | reflexivity ].
Qed.

(* ================================================================== *)
(** ** The retry engine: [RetryService.executeWithRetry] *)
(* ================================================================== *)

(** The constructor raises nothing but the engine's [TypeError]. *)
Lemma EnhancedError_new_throws_only_TypeError (e exn : Value) :
  ErrorHandler.EnhancedError_new e = Throw exn -> exn = TypeError.
Proof.
  unfold ErrorHandler.EnhancedError_new.
  destruct e; try (intros [= <-]; reflexivity);
    (destruct (get _ "message") as [ | | | | | ]; cbn [bind app]; try discriminate;
     match goal with
     | |- context [ String_ ?m ] => destruct (String_ m) eqn:Hconverted
     end; cbn [bind app]; try discriminate;
     intros [= <-]; exact (String_throws_only_TypeError _ _ Hconverted)).
Qed.

(** [new EnhancedError(a)] on an object [a]: the wrapper when the message of
    [a] converts, a [TypeError] when it does not. *)
Lemma EnhancedError_new_cases (cls : Class) (props : list (string * Value)) :
  match Spec.message_text (Object cls props) with
  | Normal _ =>
      exists enhanced,
        ErrorHandler.EnhancedError_new (Object cls props) = Normal enhanced /\
        instanceof_EnhancedError enhanced = true /\
        get enhanced "type" = get (Object cls props) "type" /\
        get enhanced "retryable" = get (Object cls props) "retryable"
  | Throw _ => ErrorHandler.EnhancedError_new (Object cls props) = Throw TypeError
  end.
Proof.
  unfold Spec.message_text, ErrorHandler.EnhancedError_new.
  destruct (get (Object cls props) "message") as [ | | | | | ]; cbn [bind app];
    try (eexists; repeat split);
    match goal with
    | |- context [ String_ ?m ] => destruct (String_ m) eqn:Hconverted
    end; cbn [bind app]; try (eexists; repeat split);
    now rewrite (String_throws_only_TypeError _ _ Hconverted).
Qed.

(** [throw new EnhancedError(e)] on a classified error rejects with the
    wrapper of that error, or with the [TypeError] of the constructor. *)
Lemma throw_EnhancedError_rejects {T : Type} (input e : Value) :
  ErrorHandler.processError input = Normal e ->
  Spec.rejects_from (RetryService.throw_EnhancedError (T := T) e) e.
Proof.
  intros Hrun. destruct (processError_returns_object _ _ Hrun) as (cls & props & ->).
  pose proof (EnhancedError_new_cases cls props) as Hnew.
  unfold Spec.rejects_from, Spec.message_converts, RetryService.throw_EnhancedError.
  destruct (Spec.message_text (Object cls props)).
  - destruct Hnew as (enhanced & Hnew & Hinst & Htype & Hflag).
    exists enhanced. rewrite Hnew. auto.
  - now rewrite Hnew.
Qed.

Lemma throw_EnhancedError_reason {T : Type} (e reason : Value) :
  RetryService.throw_EnhancedError (T := T) e = RetryService.Rejected reason ->
  reason = TypeError \/ ErrorHandler.EnhancedError_new e = Normal reason.
Proof.
  unfold RetryService.throw_EnhancedError.
  destruct (ErrorHandler.EnhancedError_new e) eqn:Hnew; intros [= <-];
    [ now right | left; exact (EnhancedError_new_throws_only_TypeError _ _ Hnew) ].
Qed.


Section Engine.

Context {platform : Platform} {T : Type}.
Variable operation : RetryService.Operation T.
Variable options : RetryOptions.

Let config := RetryService.merge options.

(** One iteration of the loop whose invocation fails retryably below the
    ceiling: the callback, the timer, then the next iteration. *)
Lemma attempts_retry (remaining : nat) (attempt : Z) (last processed : Value) (calls : nat) :
  Spec.fails_retryably operation config calls processed ->
  attempt <> RetryService.maxAttempts config ->
  RetryService.attempts operation options (S remaining) attempt last calls
  = (RetryService.Invoke
       :: RetryService.optional_call (onRetry options) (RetryService.OnRetry attempt processed)
       ++ RetryService.Delay
            (RetryService.calculateDelay attempt (RetryService.baseDelay config)
               (RetryService.backoffMultiplier config))
       :: fst (RetryService.attempts operation options remaining (attempt + 1) processed (S calls)),
     snd (RetryService.attempts operation options remaining (attempt + 1) processed (S calls))).
Proof.
  intros (error & Hop & Hclass & Hretry) Hne.
  cbn [RetryService.attempts]. rewrite Hop, Hclass.
  fold config. rewrite Hretry. cbn [negb].
  apply Z.eqb_neq in Hne. rewrite Hne. reflexivity.
Qed.

(** The last iteration, at the ceiling. *)
Lemma attempts_exhausted (remaining : nat) (attempt : Z) (last processed : Value) (calls : nat) :
  Spec.fails_retryably operation config calls processed ->
  attempt = RetryService.maxAttempts config ->
  RetryService.attempts operation options (S remaining) attempt last calls
  = (RetryService.Invoke
       :: RetryService.optional_call (onMaxAttemptsReached options)
            (RetryService.OnMaxAttemptsReached processed),
     RetryService.throw_EnhancedError processed).
Proof.
  intros (error & Hop & Hclass & Hretry) Heq.
  cbn [RetryService.attempts]. rewrite Hop, Hclass.
  fold config. rewrite Hretry. cbn [negb].
  apply Z.eqb_eq in Heq. rewrite Heq. reflexivity.
Qed.

(** An iteration whose failure is not to be retried. *)
Lemma attempts_not_retryable (remaining : nat) (attempt : Z) (last error processed : Value)
    (calls : nat) :
  operation calls = RetryService.Rejected error ->
  ErrorHandler.processError error = Normal processed ->
  RetryService.isRetryableError processed (RetryService.retryableErrors config) = false ->
  RetryService.attempts operation options (S remaining) attempt last calls
  = ([RetryService.Invoke], RetryService.throw_EnhancedError processed).
Proof.
  intros Hop Hclass Hretry.
  cbn [RetryService.attempts]. rewrite Hop, Hclass.
  fold config. rewrite Hretry. reflexivity.
Qed.

Variable processed : nat -> Value.

Hypothesis callbacks_supplied : onRetry options = true /\ onMaxAttemptsReached options = true.


End Engine.



(** With a [maxAttempts] below 1 the loop body never runs: the operation is
    not invoked and [new EnhancedError(lastError!)] raises on [null]. *)
Lemma executeWithRetry_without_attempts {platform : Platform} {T : Type}
    (operation : RetryService.Operation T) (options : RetryOptions) :
  RetryService.maxAttempts (RetryService.merge options) <= 0 ->
  RetryService.executeWithRetry operation options = ([], RetryService.Rejected TypeError).
Proof.
  intros Hmax. unfold RetryService.executeWithRetry.
  replace (Z.to_nat (RetryService.maxAttempts (RetryService.merge options))) with 0%nat by lia.
  reflexivity.
Qed.







(** *** Products of doubles *)







(* ================================================================== *)
(** ** The retry state manager: [RetryManager] *)
(* ================================================================== *)

Lemma canRetry_true_iff (m : RetryManager.Manager) :
  RetryManager.canRetry m = true <->
  exists error,
    RetryManager.lastError (RetryManager.getState m) = Some error /\
    RetryManager.attempt (RetryManager.getState m)
      < RetryManager.maxAttempts (RetryManager.getState m) /\
    truthy (get error "retryable") = true /\
    ErrorTypes_includes (RetryService.retryableErrors (RetryManager.options m))
      (get error "type") = true /\
    RetryManager.isRetrying (RetryManager.getState m) = false.
Proof.
  unfold RetryManager.canRetry, RetryManager.getState, RetryManager.isRetryableError.
  destruct (RetryManager.lastError (RetryManager.state m)) as [ error | ].
  - rewrite !andb_true_iff, negb_true_iff, Z.ltb_lt. split.
    + intros [[Hlt [Hflag Hkind]] Hidle]. exists error. auto.
    + intros (error' & [= <-] & Hlt & Hflag & Hkind & Hidle). auto.
  - split; [ discriminate | ]. intros (error & Hnone & _). discriminate Hnone.
Qed.

Lemma canRetry_false_while_retrying (m : RetryManager.Manager) :
  RetryManager.isRetrying (RetryManager.getState m) = true ->
  RetryManager.canRetry m = false.
Proof.
  unfold RetryManager.canRetry, RetryManager.getState. intros ->.
  destruct (RetryManager.lastError (RetryManager.state m)); [ | reflexivity ].
  apply andb_false_r.
Qed.

Lemma retry_refused {platform : Platform} {T : Type} (m : RetryManager.Manager)
    (outcome : RetryService.Settled T) :
  RetryManager.canRetry m = false ->
  RetryManager.retry m outcome = (m, [], RetryService.Rejected RetryManager.CannotRetry).
Proof.
  intros Hcan. unfold RetryManager.retry, RetryManager.retry_start. now rewrite Hcan.
Qed.

Lemma isRetrying_kept {platform : Platform} {T : Type} (m : RetryManager.Manager)
    (s : RetryManager.Step (T := T)) :
  Spec.keeps_retry_in_flight s = true ->
  RetryManager.isRetrying (RetryManager.getState m) = true ->
  RetryManager.isRetrying (RetryManager.getState (RetryManager.step m s)) = true.
Proof.
  intros Hkind Hbusy. destruct s as [ | outcome | | outcome | ]; try discriminate Hkind.
  - destruct outcome as [ value | error ]; [ exact Hbusy | ].
    cbn. destruct (ErrorHandler.processError error); exact Hbusy.
  - cbn. unfold RetryManager.retry_start.
    rewrite (canRetry_false_while_retrying m Hbusy). exact Hbusy.
Qed.

Lemma isRetrying_kept_along {platform : Platform} {T : Type}
    (steps : list (RetryManager.Step (T := T))) :
  forall m,
  forallb Spec.keeps_retry_in_flight steps = true ->
  RetryManager.isRetrying (RetryManager.getState m) = true ->
  RetryManager.isRetrying (RetryManager.getState (RetryManager.run m steps)) = true.
Proof.
  induction steps as [ | s steps IH ]; intros m Hkinds Hbusy; [ exact Hbusy | ].
  cbn [forallb] in Hkinds. apply andb_true_iff in Hkinds as [Hkind Hkinds].
  apply (IH (RetryManager.step m s) Hkinds). now apply isRetrying_kept.
Qed.

Lemma retry_start_sets_isRetrying {platform : Platform} (m m' : RetryManager.Manager)
    (events : list RetryService.Event) :
  RetryManager.retry_start m = (m', events, None) ->
  RetryManager.isRetrying (RetryManager.getState m') = true.
Proof.
  unfold RetryManager.retry_start.
  destruct (RetryManager.canRetry m); cbn [negb]; [ | discriminate ].
  intros [= <- _]. reflexivity.
Qed.

(** What [canRetry()] is in every state of a manager: true exactly when
    [lastError] is not null, [attempt] is below [maxAttempts],
    [lastError.retryable] holds, the kind of [lastError] is in
    [retryableErrors], and [isRetrying] is false.  So while [isRetrying] is
    true a call of [retry()] is rejected, without invoking the operation and
    without touching the state; and the flag set by an accepted [retry()]
    stays set as long as nothing but settlements of [execute()] and further
    calls of [retry()] happen. *)
Lemma canRetry_characterised {platform : Platform} (m : RetryManager.Manager) :
  (RetryManager.canRetry m = true <->
   exists error,
     RetryManager.lastError (RetryManager.getState m) = Some error /\
     RetryManager.attempt (RetryManager.getState m)
       < RetryManager.maxAttempts (RetryManager.getState m) /\
     truthy (get error "retryable") = true /\
     ErrorTypes_includes (RetryService.retryableErrors (RetryManager.options m))
       (get error "type") = true /\
     RetryManager.isRetrying (RetryManager.getState m) = false) /\
  (RetryManager.isRetrying (RetryManager.getState m) = true ->
   RetryManager.canRetry m = false /\
   forall (T : Type) (outcome : RetryService.Settled T),
     RetryManager.retry m outcome = (m, [], RetryService.Rejected RetryManager.CannotRetry)) /\
  (forall m' events,
     RetryManager.retry_start m = (m', events, None) ->
     RetryManager.isRetrying (RetryManager.getState m') = true /\
     forall (T : Type) (steps : list (RetryManager.Step (T := T))),
       forallb Spec.keeps_retry_in_flight steps = true ->
       RetryManager.isRetrying (RetryManager.getState (RetryManager.run m' steps)) = true /\
       RetryManager.canRetry (RetryManager.run m' steps) = false).
Proof.
  split; [ apply canRetry_true_iff | ]. split.
  - intros Hbusy. pose proof (canRetry_false_while_retrying m Hbusy) as Hcan.
    split; [ exact Hcan | ]. intros T outcome. now apply retry_refused.
  - intros m' events Hstarted.
    pose proof (retry_start_sets_isRetrying m m' events Hstarted) as Hbusy.
    split; [ exact Hbusy | ]. intros T steps Hkinds.
    pose proof (isRetrying_kept_along steps m' Hkinds Hbusy) as Hstill.
    split; [ exact Hstill | now apply canRetry_false_while_retrying ].
Qed.

(** C6.  The guard against overlapping retries does not hold.  [canRetry()]
    is the conjunction the claim states, and it is false while [isRetrying]
    is true; but [isRetrying] does not stay true while a retry is in flight.
    After a failed [execute()], a [retry()] is accepted and its operation
    stays pending; an [execute()] started meanwhile sets [isRetrying] to
    false, and once it has failed [canRetry()] is true with the first retry
    still in flight: a second [retry()] is accepted and invokes the
    operation on top of the first.  When the first retry then settles, it
    clears [isRetrying] under the second one, and a third is accepted. *)
Theorem retry_accepted_over_pending_retry {platform : Platform} :
  let fresh := RetryManager.new (policy 3 1000 2) in
  let overlapped := RetryManager.run fresh execute_over_pending_retry in
  let settled_under :=
    RetryManager.run fresh
      (execute_over_pending_retry
         ++ [RetryManager.RetryStart;
             RetryManager.RetrySettle (RetryService.Rejected network_failure)]) in
  Spec.retries_in_flight fresh execute_over_pending_retry 0 = 1%nat /\
  RetryManager.isRetrying (RetryManager.getState overlapped) = false /\
  RetryManager.canRetry overlapped = true /\
  snd (RetryManager.retry_start overlapped) = None /\
  snd (fst (RetryManager.retry_start overlapped))
  = [RetryService.OnRetry 2 network_failure; RetryService.Invoke] /\
  Spec.retries_in_flight fresh (execute_over_pending_retry ++ [RetryManager.RetryStart]) 0
  = 2%nat /\
  Spec.retries_in_flight fresh
    (execute_over_pending_retry
       ++ [RetryManager.RetryStart;
           RetryManager.RetrySettle (RetryService.Rejected network_failure)]) 0 = 1%nat /\
  RetryManager.isRetrying (RetryManager.getState settled_under) = false /\
  RetryManager.canRetry settled_under = true.
Proof. cbv zeta. repeat split. Qed.

(** The constructor keeps a [maxAttempts] and a [baseDelay] that are not 0. *)
Lemma new_initial_state (opts : RetryOptions) (M : Z) (d : float) :
  Types.maxAttempts opts = Some M -> M <> 0 ->
  Types.baseDelay opts = Some d -> falsy d = false ->
  RetryManager.getState (RetryManager.new opts)
  = {| RetryManager.attempt := 0;
       RetryManager.maxAttempts := M;
       RetryManager.lastError := None;
       RetryManager.isRetrying := false;
       RetryManager.nextRetryDelay := d |}.
Proof.
  intros HM HM0 Hd Hd0.
  unfold RetryManager.getState, RetryManager.new, RetryManager.initial_state. cbn.
  rewrite HM, Hd. cbn [RetryManager.or_Z RetryManager.or_number].
  apply Z.eqb_neq in HM0. now rewrite HM0, Hd0.
Qed.

Lemma step_options {platform : Platform} {T : Type} (m : RetryManager.Manager)
    (s : RetryManager.Step (T := T)) :
  RetryManager.options (RetryManager.step m s) = RetryManager.options m.
Proof.
  destruct s as [ | outcome | | outcome | ]; cbn; try reflexivity.
  - destruct outcome as [ value | error ]; [ reflexivity | ].
    cbn. destruct (ErrorHandler.processError error); reflexivity.
  - unfold RetryManager.retry_start. destruct (RetryManager.canRetry m); reflexivity.
  - destruct outcome as [ value | error ]; [ reflexivity | ].
    cbn. destruct (ErrorHandler.processError error); reflexivity.
Qed.

(** No method changes the resolved options of a manager. *)
Lemma run_options {platform : Platform} {T : Type}
    (steps : list (RetryManager.Step (T := T))) :
  forall m, RetryManager.options (RetryManager.run m steps) = RetryManager.options m.
Proof.
  induction steps as [ | s steps IH ]; intros m; [ reflexivity | ].
  cbn. unfold RetryManager.run in IH. rewrite IH. apply step_options.
Qed.

(** [reset()] after any sequence of calls, interleaved or not, restores the
    snapshot the manager had when it was constructed. *)
Lemma reset_restores_initial_state {platform : Platform} {T : Type} (opts : RetryOptions)
    (steps : list (RetryManager.Step (T := T))) :
  RetryManager.getState (RetryManager.reset (RetryManager.run (RetryManager.new opts) steps))
  = RetryManager.getState (RetryManager.new opts).
Proof.
  unfold RetryManager.reset, RetryManager.getState. cbn [RetryManager.set_state RetryManager.state].
  rewrite run_options. reflexivity.
Qed.

(** C7.  The constructor does not keep a [baseDelay] of 0: [0 || 1000] is
    1000, so a manager built from the policy [{ maxAttempts: 3, baseDelay: 0,
    backoffMultiplier: 2 }] reports [nextRetryDelay = 1000], not the
    [baseDelay] of its policy, although the merge done by [executeWithRetry]
    on the same options keeps the 0. *)
Theorem new_replaces_zero_baseDelay :
  RetryManager.nextRetryDelay (RetryManager.getState (RetryManager.new (policy 3 0 2)))
  = 1000%float /\
  (RetryManager.nextRetryDelay (RetryManager.getState (RetryManager.new (policy 3 0 2)))
   =? 0)%float = false /\
  RetryManager.nextRetryDelay (RetryManager.getState (createRetryManager (policy 3 0 2)))
  = 1000%float /\
  RetryService.baseDelay (RetryService.merge (policy 3 0 2)) = 0%float.
Proof. repeat split. Qed.

(** A policy whose [baseDelay] and [backoffMultiplier] are not falsy is
    resolved by the constructor as the engine resolves it. *)
Lemma new_options_merge (options : RetryOptions) :
  (forall d, Types.baseDelay options = Some d -> falsy d = false) ->
  (forall k, Types.backoffMultiplier options = Some k -> falsy k = false) ->
  RetryService.baseDelay (RetryManager.options (RetryManager.new options))
  = RetryService.baseDelay (RetryService.merge options) /\
  RetryService.backoffMultiplier (RetryManager.options (RetryManager.new options))
  = RetryService.backoffMultiplier (RetryService.merge options).
Proof.
  intros Hbase Hmultiplier.
  unfold RetryManager.new, RetryService.merge, RetryManager.or_number, RetryService.spread.
  cbn [RetryManager.options RetryService.baseDelay RetryService.backoffMultiplier].
  split.
  - destruct (Types.baseDelay options) as [ d | ]; [ | reflexivity ].
    now rewrite (Hbase d eq_refl).
  - destruct (Types.backoffMultiplier options) as [ k | ]; [ | reflexivity ].
    now rewrite (Hmultiplier k eq_refl).
Qed.

(** C8 (as amended).  On a manager built from a policy whose [baseDelay] and
    [backoffMultiplier] are not 0 (nor [NaN]), after any sequence of calls, a
    [retry()] that is accepted increments [attempt] to [N], the attempt about
    to run, and stores
    [nextRetryDelay = baseDelay * Math.pow(backoffMultiplier, N - 1)], in
    double arithmetic, with the [baseDelay] and [backoffMultiplier] of the
    policy: the delay the engine awaits under that policy after the failure
    of attempt [N], before attempt [N + 1].  After a failed [execute()]
    ([attempt = 1]) the first [retry()] runs attempt 2 and stores
    [baseDelay * Math.pow(backoffMultiplier, 1)]. *)
Theorem retry_stores_delay_after_attempt {platform : Platform} {T : Type}
  (options : RetryOptions) (steps : list (RetryManager.Step (T := T)))
  (Hbase : forall d, Types.baseDelay options = Some d -> falsy d = false)
  (Hmultiplier : forall k, Types.backoffMultiplier options = Some k -> falsy k = false)
  (Hcan : RetryManager.canRetry (RetryManager.run (RetryManager.new options) steps) = true) :
  let m := RetryManager.run (RetryManager.new options) steps in
  let started := fst (fst (RetryManager.retry_start m)) in
  let N := RetryManager.attempt (RetryManager.getState started) in
  N = RetryManager.attempt (RetryManager.getState m) + 1 /\
  RetryManager.nextRetryDelay (RetryManager.getState started)
  = (RetryService.baseDelay (RetryService.merge options)
     * Math_pow (RetryService.backoffMultiplier (RetryService.merge options)) (N - 1))%float /\
  RetryManager.nextRetryDelay (RetryManager.getState started)
  = RetryService.calculateDelay N (RetryService.baseDelay (RetryService.merge options))
      (RetryService.backoffMultiplier (RetryService.merge options)) /\
  (RetryManager.attempt (RetryManager.getState m) = 1 ->
   N = 2 /\
   RetryManager.nextRetryDelay (RetryManager.getState started)
   = (RetryService.baseDelay (RetryService.merge options)
      * Math_pow (RetryService.backoffMultiplier (RetryService.merge options)) 1)%float).
Proof.
  intros m started N. subst N started.
  destruct (new_options_merge options Hbase Hmultiplier) as [Hd Hk].
  pose proof (run_options steps (RetryManager.new options)) as Hoptions. fold m in Hoptions.
  unfold RetryManager.retry_start. fold m in Hcan. rewrite Hcan.
  cbn [negb fst RetryManager.getState RetryManager.set_state RetryManager.state
       RetryManager.attempt RetryManager.nextRetryDelay].
  unfold RetryManager.calculateDelay, RetryService.calculateDelay.
  rewrite Hoptions, Hd, Hk.
  split; [ reflexivity | ]. split; [ reflexivity | ]. split; [ reflexivity | ].
  intros Hone. unfold RetryManager.getState in Hone. rewrite Hone.
  split; reflexivity.
Qed.

Lemma retry_stores_delay_after_attempt_witness :
  RetryManager.attempt (RetryManager.getState (failed_once (policy 3 1000 2))) = 1 /\
  RetryManager.attempt (RetryManager.getState (retry_in_flight (policy 3 1000 2))) = 2 /\
  RetryManager.nextRetryDelay (RetryManager.getState (retry_in_flight (policy 3 1000 2)))
  = (1000 * Math_pow (platform := by_multiplication) 2 1)%float /\
  RetryManager.nextRetryDelay (RetryManager.getState (retry_in_flight (policy 3 1000 2)))
  = RetryService.calculateDelay (platform := by_multiplication) 2 1000 2.
Proof.
  pose proof (retry_stores_delay_after_attempt (platform := by_multiplication) (T := Value)
                (policy 3 1000 2)
                [RetryManager.ExecuteStart;
                 RetryManager.ExecuteSettle (RetryService.Rejected network_failure)]
                (fun d H => f_equal falsy (eq_sym (f_equal (fun o => match o with
                                                                     | Some x => x
                                                                     | None => d
                                                                     end) H)))
                (fun k H => f_equal falsy (eq_sym (f_equal (fun o => match o with
                                                                     | Some x => x
                                                                     | None => k
                                                                     end) H)))
                eq_refl)
    as (_ & _ & Hstored & Hfirst).
  split; [ reflexivity | ].
  split; [ exact (proj1 (Hfirst eq_refl)) | ].
  split; [ exact (proj2 (Hfirst eq_refl)) | exact Hstored ].
Defined.

(** C8 (as stated) fails: with [baseDelay = 1000] and [backoffMultiplier = 2],
    after a failed [execute()] the first [retry()] runs attempt 2 and stores
    [nextRetryDelay = 2000], not 1000. *)
Lemma first_retry_stores_2000 :
  RetryManager.canRetry (failed_once (policy 3 1000 2)) = true /\
  RetryManager.attempt (RetryManager.getState (retry_in_flight (policy 3 1000 2))) = 2 /\
  RetryManager.nextRetryDelay (RetryManager.getState (retry_in_flight (policy 3 1000 2)))
  = 2000%float /\
  (RetryManager.nextRetryDelay (RetryManager.getState (retry_in_flight (policy 3 1000 2)))
   =? 1000)%float = false.
Proof. repeat split. Qed.

(** C10.  On a manager that has just been constructed, [canRetry()] is
    false; [retry()] rejects with the "Cannot retry" error, the operation is
    not invoked (the trace is empty), and the manager is left as it was:
    [attempt] 0, [lastError] null, [isRetrying] false, [nextRetryDelay]
    unchanged. *)
Theorem retry_on_fresh_manager_rejected {platform : Platform} {T : Type}
  (opts : RetryOptions) (outcome : RetryService.Settled T) :
  let fresh := RetryManager.new opts in
  let result := RetryManager.retry fresh outcome in
  RetryManager.canRetry fresh = false /\
  snd result = RetryService.Rejected RetryManager.CannotRetry /\
  (exists text,
     String_ (get RetryManager.CannotRetry "message") = Normal text /\
     string_includes text "Cannot retry" = true) /\
  RetryService.invocations (snd (fst result)) = 0%nat /\
  snd (fst result) = [] /\
  fst (fst result) = fresh /\
  RetryManager.getState (fst (fst result)) = RetryManager.getState fresh /\
  RetryManager.attempt (RetryManager.getState (fst (fst result))) = 0 /\
  RetryManager.lastError (RetryManager.getState (fst (fst result))) = None /\
  RetryManager.isRetrying (RetryManager.getState (fst (fst result))) = false /\
  RetryManager.nextRetryDelay (RetryManager.getState (fst (fst result)))
  = RetryManager.nextRetryDelay (RetryManager.getState fresh).
Proof.
  intros fresh result.
  assert (Hcan : RetryManager.canRetry fresh = false) by reflexivity.
  subst result. rewrite (retry_refused fresh outcome Hcan). cbn [fst snd].
  split; [ reflexivity | ]. split; [ reflexivity | ].
  split; [ eexists; split; reflexivity | ].
  repeat split; reflexivity.
Qed.

(* ================================================================== *)
(** ** Further properties of the classifier *)
(* ================================================================== *)

(** X1.  Classifying is idempotent: whatever [processError] returns, it
    returns unchanged when given it again, so an error that crosses several
    layers of handlers keeps its kind, message, code and flag. *)
Theorem processError_idempotent (input e : Value)
  (Hreturned : ErrorHandler.processError input = Normal e) :
  ErrorHandler.processError e = Normal e.
Proof.
  revert Hreturned. unfold ErrorHandler.processError at 1.
  destruct (instanceof_EnhancedError input) eqn:Henh; [ intros [= <-]; reflexivity | ].
  destruct (ErrorHandler.isAppError input) eqn:Happ.
  { intros [= <-]. unfold ErrorHandler.processError. now rewrite Henh, Happ. }
  destruct (ErrorHandler.isApiResponse input && negb (truthy (get input "success"))).
  { unfold ErrorHandler.processApiResponseError.
    destruct (get input "statusCode") as [ | | | n | | ]; try (intros [= <-]; reflexivity).
    status_cases n; try (intros [= <-]; reflexivity);
      (destruct (call_includes _ _); cbn [bind]; [ intros [= <-]; reflexivity | discriminate ]). }
  destruct (instanceof_Error input);
    [ | destruct (String_ input); cbn [bind]; [ intros [= <-]; reflexivity | discriminate ] ].
  destruct (get input "message") as [ | | | | s | ] eqn:Hmsg;
    unfold ErrorHandler.processJavaScriptError; rewrite Hmsg; try discriminate.
  message_cases s; intros [= <-]; reflexivity.
Qed.

Lemma processError_idempotent_witness :
  ErrorHandler.processError
    (Object PlainObject
       [("type", Str "API_RATE_LIMIT"); ("message", Str "Rate limit exceeded");
        ("code", Number 429); ("retryable", Boolean true)])
  = Normal
      (Object PlainObject
         [("type", Str "API_RATE_LIMIT"); ("message", Str "Rate limit exceeded");
          ("code", Number 429); ("retryable", Boolean true)]).
Proof.
  exact (processError_idempotent (ApiFailure 429 "Rate limit exceeded") _ eq_refl).
Defined.

(** X2.  Wrapping and classifying again is a round trip.  For every object
    [a] whose message is absent or can be converted to a string,
    [processError(new EnhancedError(a))] returns the kind, code, flag and
    details of [a], with the message of [a] converted to a string (the empty
    string of [Error.prototype] when [a] has none).  When the message cannot
    be converted, [new EnhancedError(a)] raises a [TypeError]. *)
Theorem EnhancedError_round_trip (cls : Class) (props : list (string * Value)) :
  match Spec.message_text (Object cls props) with
  | Normal text =>
      exists enhanced,
        ErrorHandler.EnhancedError_new (Object cls props) = Normal enhanced /\
        ErrorHandler.processError enhanced
        = Normal (Object PlainObject
            [("type", get (Object cls props) "type");
             ("message", Str match text with Some converted => converted | None => "" end);
             ("code", get (Object cls props) "code");
             ("retryable", get (Object cls props) "retryable");
             ("details", get (Object cls props) "details")])
  | Throw _ => ErrorHandler.EnhancedError_new (Object cls props) = Throw TypeError
  end.
Proof.
  unfold Spec.message_text, ErrorHandler.EnhancedError_new.
  destruct (get (Object cls props) "message") as [ | | | | | ]; cbn [bind app];
    try (eexists; split; reflexivity);
    match goal with
    | |- context [ String_ ?m ] => destruct (String_ m) eqn:Hconverted
    end; cbn [bind app]; try (eexists; split; reflexivity);
    now rewrite (String_throws_only_TypeError _ _ Hconverted).
Qed.

(** X3.  With the default policy, a native [Error] is retried unless its
    message mentions "validation" or "required" without mentioning "fetch" or
    "network": the network test comes first, so a message that mentions both
    is retried. *)
Theorem native_error_retried_by_default (message : string) :
  exists e,
    ErrorHandler.processError (Error_new message) = Normal e /\
    RetryService.isRetryableError e (RetryService.retryableErrors RetryService.defaultOptions)
    = string_includes message "fetch" || string_includes message "network"
      || negb (string_includes message "validation" || string_includes message "required").
Proof.
  change (ErrorHandler.processError (Error_new message))
    with (ErrorHandler.processJavaScriptError (Error_new message)).
  unfold ErrorHandler.processJavaScriptError.
  change (get (Error_new message) "message") with (Str message).
  message_cases message; eexists; split; reflexivity.
Qed.

(** X4.  The [code] and [message] of a classified [ApiResponse] failure are
    never empty: a status code of 0 is reported as 500 (although it selects
    the kind NETWORK_ERROR), and an empty [error] text as
    "Unknown API error". *)
Theorem api_failure_code_and_message (n : Z) (msg : string) :
  exists e,
    ErrorHandler.processError (ApiFailure n msg) = Normal e /\
    get e "code" = Number (if n =? 0 then 500 else n) /\
    get e "message" = Str (if String.eqb msg "" then "Unknown API error" else msg) /\
    truthy (get e "code") = true /\
    truthy (get e "message") = true.
Proof.
  rewrite processError_ApiFailure. unfold ErrorHandler.processApiResponseError.
  change (get (ApiFailure n msg) "statusCode") with (Number n).
  change (get (ApiFailure n msg) "error") with (Str msg).
  rewrite or_else_Str.
  assert (Hcode : or_else (Number n) (Number 500) = Number (if n =? 0 then 500 else n))
    by (unfold or_else, truthy; destruct (n =? 0); reflexivity).
  assert (Hcode_truthy : truthy (Number (if n =? 0 then 500 else n)) = true)
    by (cbn; destruct (n =? 0) eqn:Hz; [ reflexivity | now rewrite Hz ]).
  assert (Hmsg_truthy :
            truthy (Str (if String.eqb msg "" then "Unknown API error" else msg)) = true)
    by (cbn; destruct (String.eqb msg "") eqn:He; [ reflexivity | now rewrite He ]).
  rewrite Hcode. cbn [call_includes bind].
  status_cases n; eexists; (split; [ reflexivity | ]); cbn [get own proto String.eqb Ascii.eqb Bool.eqb];
    auto.
Qed.

Lemma ErrorType_of_str_str (t : ErrorType) :
  Handler.ErrorType_of_str (ErrorType_str t) = Some t.
Proof. destruct t; reflexivity. Qed.

(** An error whose kind is a member of [ErrorType] is shown the text of the
    table, whatever its own message. *)
Lemma getUserFriendlyMessage_of_kind (e : Value) (t : ErrorType) :
  get e "type" = ErrorType_value t ->
  Handler.getUserFriendlyMessage e = Normal (Some (Str (Handler.ERROR_MESSAGES t))).
Proof.
  intros Hkind. unfold Handler.getUserFriendlyMessage. rewrite Hkind.
  change (String_ (ErrorType_value t)) with (Normal (A := string) (ErrorType_str t)).
  cbn [bind]. rewrite ErrorType_of_str_str. destruct t; reflexivity.
Qed.

(** A kind outside [ErrorType] (and [Object.prototype]) falls back on the
    message of the error. *)
Lemma getUserFriendlyMessage_fallback (e : Value) (kind : string) :
  get e "type" = Str kind ->
  Handler.ErrorType_of_str kind = None ->
  existsb (String.eqb kind) Handler.Object_prototype_keys = false ->
  Handler.getUserFriendlyMessage e = Normal (Some (get e "message")).
Proof.
  intros Hkind Hmember Hproto. unfold Handler.getUserFriendlyMessage.
  rewrite Hkind. cbn [String_ bind]. now rewrite Hmember, Hproto.
Qed.

(** X5.  Every error the classifier builds itself (from an input that is
    neither an [EnhancedError] nor shaped like an [AppError]) is shown to the
    user with the text of [ERROR_MESSAGES] for its kind, which is not empty;
    [getUserFriendlyMessage] never falls back on the raw message for it. *)
Theorem built_error_shown_with_table_text (input e : Value)
  (Hinput : instanceof_EnhancedError input = false /\ ErrorHandler.isAppError input = false)
  (Hreturned : ErrorHandler.processError input = Normal e) :
  exists t,
    get e "type" = ErrorType_value t /\
    Handler.getUserFriendlyMessage e = Normal (Some (Str (Handler.ERROR_MESSAGES t))) /\
    Handler.ERROR_MESSAGES t <> "".
Proof.
  destruct Hinput as [Henh Happ].
  destruct (built_error_flag input e Henh Happ Hreturned) as (t & Hkind & _ & _).
  exists t. split; [ exact Hkind | ].
  split; [ now apply getUserFriendlyMessage_of_kind | destruct t; discriminate ].
Qed.

Lemma built_error_shown_with_table_text_witness :
  exists t,
    get (Object PlainObject
           [("type", Str "UNKNOWN_ERROR"); ("message", Str "An unexpected error occurred");
            ("details", Str "boom"); ("retryable", Boolean true)]) "type"
    = ErrorType_value t /\
    Handler.getUserFriendlyMessage
      (Object PlainObject
         [("type", Str "UNKNOWN_ERROR"); ("message", Str "An unexpected error occurred");
          ("details", Str "boom"); ("retryable", Boolean true)])
    = Normal (Some (Str (Handler.ERROR_MESSAGES t))) /\
    Handler.ERROR_MESSAGES t <> "".
Proof.
  exact (built_error_shown_with_table_text (Str "boom") _ (conj eq_refl eq_refl) eq_refl).
Defined.

(* ================================================================== *)
(** ** Further properties of [executeWithRetry] *)
(* ================================================================== *)

Lemma invocations_retry (supplied : bool) (attempt : Z) (error : Value) (ms : float)
    (rest : list RetryService.Event) :
  RetryService.invocations
    (RetryService.Invoke
       :: RetryService.optional_call supplied (RetryService.OnRetry attempt error)
       ++ RetryService.Delay ms :: rest)
  = S (RetryService.invocations rest).
Proof. destruct supplied; reflexivity. Qed.

Lemma onRetry_calls_retry (supplied : bool) (attempt : Z) (error : Value) (ms : float)
    (rest : list RetryService.Event) :
  RetryService.onRetry_calls
    (RetryService.Invoke
       :: RetryService.optional_call supplied (RetryService.OnRetry attempt error)
       ++ RetryService.Delay ms :: rest)
  = (if supplied then [(attempt, error)] else []) ++ RetryService.onRetry_calls rest.
Proof. destruct supplied; reflexivity. Qed.

Lemma onMaxAttemptsReached_calls_retry (supplied : bool) (attempt : Z) (error : Value)
    (ms : float) (rest : list RetryService.Event) :
  RetryService.onMaxAttemptsReached_calls
    (RetryService.Invoke
       :: RetryService.optional_call supplied (RetryService.OnRetry attempt error)
       ++ RetryService.Delay ms :: rest)
  = RetryService.onMaxAttemptsReached_calls rest.
Proof. destruct supplied; reflexivity. Qed.

Lemma delays_retry (supplied : bool) (attempt : Z) (error : Value) (ms : float)
    (rest : list RetryService.Event) :
  RetryService.delays
    (RetryService.Invoke
       :: RetryService.optional_call supplied (RetryService.OnRetry attempt error)
       ++ RetryService.Delay ms :: rest)
  = ms :: RetryService.delays rest.
Proof. destruct supplied; reflexivity. Qed.

Lemma attempts_iteration {platform : Platform} {T : Type}
    (operation : RetryService.Operation T)
    (options : RetryOptions) (remaining : nat) (attempt : Z) (last : Value) (calls : nat) :
  Scenario.iteration operation options remaining attempt last calls.
Proof.
  destruct (operation calls) as [ value | error ] eqn:Hop.
  { apply (Scenario.resolves _ _ _ _ _ _ value Hop). cbn [RetryService.attempts]. now rewrite Hop. }
  destruct (ErrorHandler.processError error) as [ processed | exn ] eqn:Hclass.
  2: { pose proof (processError_throws_only_TypeError _ _ Hclass) as ->.
       apply (Scenario.unclassified _ _ _ _ _ _ error Hop Hclass).
       cbn [RetryService.attempts]. now rewrite Hop, Hclass. }
  destruct (RetryService.isRetryableError processed
              (RetryService.retryableErrors (RetryService.merge options))) eqn:Hretry.
  2: { apply (Scenario.gives_up _ _ _ _ _ _ error processed Hop Hclass Hretry).
       now apply attempts_not_retryable with (error := error). }
  assert (Hfail : Spec.fails_retryably operation (RetryService.merge options) calls processed)
    by (exists error; auto).
  destruct (Z.eq_dec attempt (RetryService.maxAttempts (RetryService.merge options)))
    as [Hmax | Hmax].
  - apply (Scenario.exhausted _ _ _ _ _ _ processed Hfail Hmax). now apply attempts_exhausted.
  - apply (Scenario.retries _ _ _ _ _ _ processed Hfail Hmax). now apply attempts_retry.
Qed.

Section AnyOperation.

Context {platform : Platform} {T : Type}.
Variable operation : RetryService.Operation T.
Variable options : RetryOptions.

Let maxAttempts := RetryService.maxAttempts (RetryService.merge options).

(** Counts along the loop, whatever the operation does. *)
Lemma attempts_counts (remaining : nat) :
  forall (attempt : Z) (last : Value) (calls : nat),
  Z.of_nat (S remaining) = maxAttempts - attempt + 1 ->
  let trace := fst (RetryService.attempts operation options (S remaining) attempt last calls) in
  (RetryService.invocations trace <= S remaining)%nat /\
  RetryService.invocations trace = S (List.length (RetryService.delays trace)) /\
  List.length (RetryService.onRetry_calls trace)
  = (if onRetry options then List.length (RetryService.delays trace) else 0%nat) /\
  (List.length (RetryService.onMaxAttemptsReached_calls trace) <= 1)%nat.
Proof.
  induction remaining as [ | r IH ]; intros attempt last calls Hcount trace; subst trace;
    [ destruct (attempts_iteration operation options 0 attempt last calls)
        as [ v _ Hrun | e _ _ Hrun | e p _ _ _ Hrun | p _ _ Hrun | p _ Hne Hrun ]
    | destruct (attempts_iteration operation options (S r) attempt last calls)
        as [ v _ Hrun | e _ _ Hrun | e p _ _ _ Hrun | p _ _ Hrun | p _ Hne Hrun ] ];
    rewrite Hrun; cbn [fst];
    try (destruct (onRetry options); cbn; repeat split; lia);
    try (destruct (onRetry options), (onMaxAttemptsReached options); cbn; repeat split; lia).
  destruct (IH (attempt + 1) p (S calls) ltac:(unfold maxAttempts in *; lia))
    as (Hle & Hinv & Hretry & Hmax).
  rewrite invocations_retry, onRetry_calls_retry, onMaxAttemptsReached_calls_retry,
    delays_retry, length_app, Hretry.
  cbn [List.length]. destruct (onRetry options); cbn [List.length]; repeat split; lia.
Qed.

(** The timers follow the schedule, whatever the operation does. *)
Lemma attempts_schedule (remaining : nat) :
  forall (attempt : Z) (last : Value) (calls j : nat) (ms : float),
  nth_error
    (RetryService.delays
       (fst (RetryService.attempts operation options remaining attempt last calls))) j
  = Some ms ->
  ms = RetryService.calculateDelay (attempt + Z.of_nat j)
         (RetryService.baseDelay (RetryService.merge options))
         (RetryService.backoffMultiplier (RetryService.merge options)).
Proof.
  induction remaining as [ | r IH ]; intros attempt last calls j ms.
  - destruct j; discriminate.
  - destruct (attempts_iteration operation options r attempt last calls)
      as [ v _ Hrun | e _ _ Hrun | e p _ _ _ Hrun | p _ _ Hrun | p _ Hne Hrun ];
      rewrite Hrun; cbn [fst];
      try (destruct j; discriminate);
      try (destruct (onMaxAttemptsReached options); destruct j; discriminate).
    rewrite delays_retry. destruct j as [ | j ]; cbn [nth_error].
    + intros [= <-]. now rewrite Z.add_0_r.
    + intros Hnth. rewrite (IH _ _ _ _ _ Hnth). f_equal. lia.
Qed.

(** How a run that rejects got there. *)
Lemma attempts_rejection (remaining : nat) :
  forall (attempt : Z) (last : Value) (calls : nat) (reason : Value),
  Z.of_nat (S remaining) = maxAttempts - attempt + 1 ->
  snd (RetryService.attempts operation options (S remaining) attempt last calls)
  = RetryService.Rejected reason ->
  reason = TypeError \/
  exists (k : nat) (error processed : Value),
    (calls <= k)%nat /\
    operation k = RetryService.Rejected error /\
    ErrorHandler.processError error = Normal processed /\
    ErrorHandler.EnhancedError_new processed = Normal reason /\
    RetryService.invocations
      (fst (RetryService.attempts operation options (S remaining) attempt last calls))
    = (S k - calls)%nat.
Proof.
  induction remaining as [ | r IH ]; intros attempt last calls reason Hcount;
    [ destruct (attempts_iteration operation options 0 attempt last calls)
        as [ v _ Hrun | e _ _ Hrun | e p Hop Hclass _ Hrun
           | p (e & Hop & Hclass & _) _ Hrun | p _ Hne Hrun ]
    | destruct (attempts_iteration operation options (S r) attempt last calls)
        as [ v _ Hrun | e _ _ Hrun | e p Hop Hclass _ Hrun
           | p (e & Hop & Hclass & _) _ Hrun | p _ Hne Hrun ] ];
    rewrite Hrun; cbn [fst snd]; try discriminate;
    try (intros [= <-]; left; reflexivity);
    try (intros Hthrown;
         destruct (throw_EnhancedError_reason _ _ Hthrown) as [ Htype | Hnew ];
         [ now left | right ];
         exists calls, e, p;
         repeat split; [ lia | assumption | assumption | assumption | ];
         destruct (onMaxAttemptsReached options); cbn -[Nat.sub]; lia).
  - unfold maxAttempts in *; lia.
  - intros Hrest.
    destruct (IH (attempt + 1) p (S calls) reason ltac:(unfold maxAttempts in *; lia) Hrest)
      as [ Htype | (k & e & q & Hk & Hop & Hclass & Hnew & Hinv) ]; [ now left | right ].
    exists k, e, q. rewrite invocations_retry, Hinv. repeat split; try assumption; lia.
Qed.

(** When [onMaxAttemptsReached] is called. *)
Lemma attempts_onMaxAttemptsReached (remaining : nat) :
  forall (attempt : Z) (last : Value) (calls : nat) (processed : Value)
         (others : list Value),
  Z.of_nat (S remaining) = maxAttempts - attempt + 1 ->
  RetryService.onMaxAttemptsReached_calls
    (fst (RetryService.attempts operation options (S remaining) attempt last calls))
  = processed :: others ->
  others = [] /\
  RetryService.invocations
    (fst (RetryService.attempts operation options (S remaining) attempt last calls))
  = S remaining /\
  Spec.fails_retryably operation (RetryService.merge options) (calls + remaining) processed /\
  snd (RetryService.attempts operation options (S remaining) attempt last calls)
  = RetryService.throw_EnhancedError processed.
Proof.
  induction remaining as [ | r IH ]; intros attempt last calls processed others Hcount;
    [ destruct (attempts_iteration operation options 0 attempt last calls)
        as [ v _ Hrun | e _ _ Hrun | e p _ _ _ Hrun | p Hfail Hmax Hrun | p _ Hne Hrun ]
    | destruct (attempts_iteration operation options (S r) attempt last calls)
        as [ v _ Hrun | e _ _ Hrun | e p _ _ _ Hrun | p Hfail Hmax Hrun | p _ Hne Hrun ] ];
    rewrite Hrun; cbn [fst snd]; try discriminate.
  - destruct (onMaxAttemptsReached options); cbn; [ | discriminate ].
    intros [= <- <-]. rewrite Nat.add_0_r. auto.
  - unfold maxAttempts in *; lia.
  - unfold maxAttempts in *; lia.
  - rewrite onMaxAttemptsReached_calls_retry, invocations_retry. intros Hcalls.
    destruct (IH (attempt + 1) p (S calls) processed others
                ltac:(unfold maxAttempts in *; lia) Hcalls) as (Hone & Hinv & Hfail & Hsettled).
    replace (calls + S r)%nat with (S calls + r)%nat by lia. rewrite Hinv. auto.
Qed.

(** A run in which the first [k] invocations fail retryably and the next one
    resolves. *)
Lemma attempts_until_success (processed : nat -> Value) (value : T) (k : nat) :
  forall (remaining : nat) (attempt : Z) (last : Value) (calls : nat),
  (k <= remaining)%nat ->
  Z.of_nat (S remaining) = maxAttempts - attempt + 1 ->
  (forall j, (j < k)%nat ->
     Spec.fails_retryably operation (RetryService.merge options) (calls + j)
       (processed (calls + j)%nat)) ->
  operation (calls + k)%nat = RetryService.Resolved value ->
  let run := RetryService.attempts operation options (S remaining) attempt last calls in
  RetryService.invocations (fst run) = S k /\
  RetryService.onRetry_calls (fst run)
  = (if onRetry options
     then map (fun j => (attempt + Z.of_nat j, processed (calls + j)%nat)) (seq 0 k)
     else []) /\
  RetryService.delays (fst run)
  = map (fun j => RetryService.calculateDelay (attempt + Z.of_nat j)
                    (RetryService.baseDelay (RetryService.merge options))
                    (RetryService.backoffMultiplier (RetryService.merge options)))
      (seq 0 k) /\
  RetryService.onMaxAttemptsReached_calls (fst run) = [] /\
  snd run = RetryService.Resolved value.
Proof.
  induction k as [ | k IH ]; intros remaining attempt last calls Hle Hcount Hfail Hop run;
    subst run.
  - rewrite Nat.add_0_r in Hop. cbn [RetryService.attempts]. rewrite Hop.
    destruct (onRetry options); cbn; auto.
  - destruct remaining as [ | r ]; [ lia | ].
    rewrite (attempts_retry operation options (S r) attempt last (processed calls) calls).
    + destruct (IH r (attempt + 1) (processed calls) (S calls)) as (Hinv & Hretry & Hdelays & Hmax & Hsettled);
        [ lia | unfold maxAttempts in *; lia | | | ].
      * intros j Hj. specialize (Hfail (S j) ltac:(lia)).
        now replace (calls + S j)%nat with (S calls + j)%nat in Hfail by lia.
      * now replace (S calls + k)%nat with (calls + S k)%nat by lia.
      * cbn [fst snd].
        rewrite invocations_retry, onRetry_calls_retry, onMaxAttemptsReached_calls_retry,
          delays_retry, Hinv, Hretry, Hdelays, Hmax, Hsettled.
        repeat split.
        -- destruct (onRetry options); [ | reflexivity ].
           cbn [seq map app]. rewrite Z.add_0_r, Nat.add_0_r. f_equal.
           rewrite <- seq_shift, map_map. apply map_ext. intros j.
           f_equal; [ lia | f_equal; lia ].
        -- cbn [seq map]. rewrite Z.add_0_r. f_equal.
           rewrite <- seq_shift, map_map. apply map_ext. intros j. f_equal. lia.
    + specialize (Hfail 0%nat ltac:(lia)). now rewrite Nat.add_0_r in Hfail.
    + unfold maxAttempts in *; lia.
Qed.

End AnyOperation.

(** X6.  Whatever the operation does, with [maxAttempts >= 1] a run of
    [executeWithRetry] invokes it at least once and at most [maxAttempts]
    times, awaits one timer between two consecutive invocations and none
    elsewhere, calls [onRetry] (when supplied) once per timer, and calls
    [onMaxAttemptsReached] at most once. *)
Theorem executeWithRetry_counts {platform : Platform} {T : Type}
  (operation : RetryService.Operation T) (options : RetryOptions)
  (Hmax : 1 <= RetryService.maxAttempts (RetryService.merge options)) :
  let trace := fst (RetryService.executeWithRetry operation options) in
  (1 <= RetryService.invocations trace)%nat /\
  (RetryService.invocations trace
   <= Z.to_nat (RetryService.maxAttempts (RetryService.merge options)))%nat /\
  List.length (RetryService.delays trace) = (RetryService.invocations trace - 1)%nat /\
  List.length (RetryService.onRetry_calls trace)
  = (if onRetry options then RetryService.invocations trace - 1 else 0)%nat /\
  (List.length (RetryService.onMaxAttemptsReached_calls trace) <= 1)%nat.
Proof.
  intros trace. subst trace. unfold RetryService.executeWithRetry.
  destruct (Z.to_nat (RetryService.maxAttempts (RetryService.merge options)))
    as [ | remaining ] eqn:Hr; [ lia | ].
  destruct (attempts_counts operation options remaining 1 Null 0 ltac:(lia))
    as (Hle & Hinv & Hretry & Hexhausted).
  rewrite Hretry, Hinv. destruct (onRetry options); repeat split; lia.
Qed.

Lemma executeWithRetry_counts_witness :
  let trace := fst (RetryService.executeWithRetry (platform := by_multiplication)
                      (Scenario.failing_then [network_failure] (Str "letter"))
                      (with_callbacks (Some 3))) in
  (1 <= RetryService.invocations trace)%nat /\
  (RetryService.invocations trace <= 3)%nat /\
  List.length (RetryService.delays trace) = (RetryService.invocations trace - 1)%nat /\
  List.length (RetryService.onRetry_calls trace)
  = (RetryService.invocations trace - 1)%nat /\
  (List.length (RetryService.onMaxAttemptsReached_calls trace) <= 1)%nat.
Proof.
  exact (executeWithRetry_counts (platform := by_multiplication)
           (Scenario.failing_then [network_failure] (Str "letter"))
           (with_callbacks (Some 3)) ltac:(discriminate)).
Defined.

(** X7.  Whatever the operation does, the timers of a run follow the
    exponential schedule: the one in position [j] (counting from 0) is the
    double [baseDelay * Math.pow(backoffMultiplier, j)], the rounded product
    of [baseDelay] and of the power the platform returns; there is no jitter
    and no cap, and nothing else enters it. *)
Theorem executeWithRetry_delay_schedule {platform : Platform} {T : Type}
  (operation : RetryService.Operation T) (options : RetryOptions) (j : nat) (ms : float)
  (Hnth : nth_error
            (RetryService.delays (fst (RetryService.executeWithRetry operation options))) j
          = Some ms) :
  ms = (RetryService.baseDelay (RetryService.merge options)
        * Math_pow (RetryService.backoffMultiplier (RetryService.merge options))
            (Z.of_nat j))%float.
Proof.
  rewrite (attempts_schedule operation options _ _ _ _ _ _ Hnth).
  unfold RetryService.calculateDelay. do 2 f_equal. lia.
Qed.

Lemma executeWithRetry_delay_schedule_witness :
  1210.0000000000002%float
  = (1000 * Math_pow (platform := by_multiplication) 1.1 (Z.of_nat 2))%float.
Proof.
  exact (executeWithRetry_delay_schedule (platform := by_multiplication)
           (always_rejecting network_failure) (policy 4 1000 1.1) 2
           1210.0000000000002%float eq_refl).
Defined.

(** X8.  When the first [k] invocations fail retryably, [k < maxAttempts],
    and the next invocation resolves with [value], [executeWithRetry] invokes
    the operation [k + 1] times, calls [onRetry] for the attempts 1 to [k]
    with their classified errors, awaits the [k] timers of the schedule (each
    the double [baseDelay * Math.pow(backoffMultiplier, j)]), never calls
    [onMaxAttemptsReached], and resolves with [value] unchanged.  With
    [k = 0]: one invocation, no timer, no callback. *)
Theorem executeWithRetry_succeeds_after_failures {platform : Platform} {T : Type}
  (operation : RetryService.Operation T) (options : RetryOptions)
  (processed : nat -> Value) (value : T) (k : nat)
  (Hk : Z.of_nat k < RetryService.maxAttempts (RetryService.merge options))
  (Hfail : forall j, (j < k)%nat ->
     Spec.fails_retryably operation (RetryService.merge options) j (processed j))
  (Hop : operation k = RetryService.Resolved value) :
  let run := RetryService.executeWithRetry operation options in
  RetryService.invocations (fst run) = S k /\
  RetryService.onRetry_calls (fst run)
  = (if onRetry options then map (fun j => (1 + Z.of_nat j, processed j)) (seq 0 k) else []) /\
  RetryService.delays (fst run)
  = map (fun j => (RetryService.baseDelay (RetryService.merge options)
                   * Math_pow (RetryService.backoffMultiplier (RetryService.merge options))
                       (Z.of_nat j))%float) (seq 0 k) /\
  RetryService.onMaxAttemptsReached_calls (fst run) = [] /\
  snd run = RetryService.Resolved value.
Proof.
  intros run. subst run. unfold RetryService.executeWithRetry.
  destruct (Z.to_nat (RetryService.maxAttempts (RetryService.merge options)))
    as [ | remaining ] eqn:Hr; [ lia | ].
  destruct (attempts_until_success operation options processed value k remaining 1 Null 0)
    as (Hinv & Hretry & Hdelays & Hexhausted & Hsettled);
    [ lia | lia | exact Hfail | exact Hop | ].
  rewrite Hinv, Hretry, Hdelays, Hexhausted, Hsettled. repeat split.
  apply map_ext. intros j. unfold RetryService.calculateDelay. do 2 f_equal. lia.
Qed.

Lemma failing_then_fails_retryably (k : nat) :
  (k < 2)%nat ->
  Spec.fails_retryably
    (Scenario.failing_then [network_failure; network_failure] (Str "letter"))
    (RetryService.merge (with_callbacks None)) k network_failure.
Proof.
  intros Hk. exists network_failure.
  destruct k as [ | [ | k ] ]; [ | | lia ]; repeat split.
Qed.

Lemma executeWithRetry_succeeds_after_failures_witness :
  let run := RetryService.executeWithRetry (platform := by_multiplication)
               (Scenario.failing_then [network_failure; network_failure] (Str "letter"))
               (with_callbacks None) in
  RetryService.invocations (fst run) = 3%nat /\
  RetryService.onRetry_calls (fst run) = [(1, network_failure); (2, network_failure)] /\
  RetryService.delays (fst run) = [1000; 2000]%float /\
  RetryService.onMaxAttemptsReached_calls (fst run) = [] /\
  snd run = RetryService.Resolved (Str "letter").
Proof.
  exact (executeWithRetry_succeeds_after_failures (platform := by_multiplication)
           (Scenario.failing_then [network_failure; network_failure] (Str "letter"))
           (with_callbacks None) (fun _ => network_failure) (Str "letter") 2
           eq_refl failing_then_fails_retryably eq_refl).
Defined.

(** X9.  A run of [executeWithRetry] that rejects does so in one of two
    shapes only: with the [EnhancedError] built from the classified failure
    of the last invocation it made, or with a [TypeError] (when the
    classifier or the constructor of [EnhancedError] raised, or when
    [maxAttempts] is below 1 and nothing was invoked). *)
Theorem executeWithRetry_rejection_shape {platform : Platform} {T : Type}
  (operation : RetryService.Operation T) (options : RetryOptions) (reason : Value)
  (Hrejected : snd (RetryService.executeWithRetry operation options)
               = RetryService.Rejected reason) :
  reason = TypeError \/
  exists (k : nat) (error processed : Value),
    operation k = RetryService.Rejected error /\
    ErrorHandler.processError error = Normal processed /\
    ErrorHandler.EnhancedError_new processed = Normal reason /\
    RetryService.invocations (fst (RetryService.executeWithRetry operation options)) = S k.
Proof.
  revert Hrejected. unfold RetryService.executeWithRetry.
  destruct (Z.to_nat (RetryService.maxAttempts (RetryService.merge options)))
    as [ | remaining ] eqn:Hr.
  - cbn. intros [= <-]. now left.
  - intros Hrejected.
    destruct (attempts_rejection operation options remaining 1 Null 0 reason ltac:(lia)
                Hrejected)
      as [ Htype | (k & error & processed & _ & Hop & Hclass & Hnew & Hinv) ];
      [ now left | right ].
    exists k, error, processed. rewrite Hinv. repeat split; try assumption; lia.
Qed.

Lemma executeWithRetry_rejection_shape_witness :
  Object EnhancedErrorObject
    [("message", Str "Network failed"); ("name", Str "EnhancedError");
     ("type", Str "NETWORK_ERROR"); ("code", Undefined); ("retryable", Boolean true);
     ("details", Undefined)] = TypeError \/
  exists (k : nat) (error processed : Value),
    always_rejecting network_failure k = RetryService.Rejected error /\
    ErrorHandler.processError error = Normal processed /\
    ErrorHandler.EnhancedError_new processed
    = Normal (Object EnhancedErrorObject
        [("message", Str "Network failed"); ("name", Str "EnhancedError");
         ("type", Str "NETWORK_ERROR"); ("code", Undefined); ("retryable", Boolean true);
         ("details", Undefined)]) /\
    RetryService.invocations
      (fst (RetryService.executeWithRetry (platform := by_multiplication)
              (always_rejecting network_failure) (with_callbacks (Some 2)))) = S k.
Proof.
  exact (executeWithRetry_rejection_shape (platform := by_multiplication)
           (always_rejecting network_failure) (with_callbacks (Some 2)) _ eq_refl).
Defined.

(** X10.  [onMaxAttemptsReached] is called only on exhaustion: when it is
    called, it is called once, the operation has been invoked exactly
    [maxAttempts] times, the last invocation failed retryably, the callback
    received the classified error of that invocation, and the run rejects
    with the [EnhancedError] built from it (with the [TypeError] of the
    constructor when the message of that error cannot be converted to a
    string).  It is never called when the run resolves or gives up on a
    failure that is not to be retried. *)
Theorem onMaxAttemptsReached_only_on_exhaustion {platform : Platform} {T : Type}
  (operation : RetryService.Operation T) (options : RetryOptions)
  (processed : Value) (others : list Value)
  (Hcalled : RetryService.onMaxAttemptsReached_calls
               (fst (RetryService.executeWithRetry operation options))
             = processed :: others) :
  others = [] /\
  RetryService.invocations (fst (RetryService.executeWithRetry operation options))
  = Z.to_nat (RetryService.maxAttempts (RetryService.merge options)) /\
  Spec.fails_retryably operation (RetryService.merge options)
    (Z.to_nat (RetryService.maxAttempts (RetryService.merge options)) - 1) processed /\
  Spec.rejects_from (snd (RetryService.executeWithRetry operation options)) processed.
Proof.
  revert Hcalled. unfold RetryService.executeWithRetry.
  destruct (Z.to_nat (RetryService.maxAttempts (RetryService.merge options)))
    as [ | remaining ] eqn:Hr; [ discriminate | ].
  intros Hcalled.
  destruct (attempts_onMaxAttemptsReached operation options remaining 1 Null 0 processed
              others ltac:(lia) Hcalled) as (Hone & Hinv & Hfail & Hsettled).
  cbn [Nat.add] in Hfail. replace (S remaining - 1)%nat with remaining by lia.
  rewrite Hsettled. repeat split; try assumption.
  destruct Hfail as (error & _ & Hclass & _).
  exact (throw_EnhancedError_rejects error processed Hclass).
Qed.

Lemma onMaxAttemptsReached_only_on_exhaustion_witness :
  RetryService.invocations
    (fst (RetryService.executeWithRetry (platform := by_multiplication)
            (always_rejecting network_failure) (with_callbacks (Some 2)))) = 2%nat /\
  Spec.rejects_wrapping
    (snd (RetryService.executeWithRetry (platform := by_multiplication)
            (always_rejecting network_failure) (with_callbacks (Some 2)))) network_failure.
Proof.
  pose proof (onMaxAttemptsReached_only_on_exhaustion (platform := by_multiplication)
                (always_rejecting network_failure) (with_callbacks (Some 2))
                network_failure [] eq_refl) as (_ & Hinvoked & _ & Hrejected).
  split; [ exact Hinvoked | exact Hrejected ].
Defined.

(** X11.  The allow-list of the policy decides as well as the flag of the
    error: a first failure flagged retryable whose kind is not in
    [retryableErrors] is not retried.  The operation is invoked once, no
    timer is awaited, no callback is called, and the run rejects with the
    [EnhancedError] built from the classified error (with the [TypeError] of
    the constructor when the message of that error cannot be converted to a
    string). *)
Theorem kind_outside_retryableErrors_not_retried {platform : Platform} {T : Type}
  (operation : RetryService.Operation T) (options : RetryOptions)
  (error processed : Value)
  (Hmax : 1 <= RetryService.maxAttempts (RetryService.merge options))
  (Hfail : operation 0%nat = RetryService.Rejected error)
  (Hclass : ErrorHandler.processError error = Normal processed)
  (Hkind : ErrorTypes_includes (RetryService.retryableErrors (RetryService.merge options))
             (get processed "type") = false) :
  fst (RetryService.executeWithRetry operation options) = [RetryService.Invoke] /\
  Spec.rejects_from (snd (RetryService.executeWithRetry operation options)) processed.
Proof.
  unfold RetryService.executeWithRetry.
  destruct (Z.to_nat (RetryService.maxAttempts (RetryService.merge options)))
    as [ | r ] eqn:Hr; [ lia | ].
  rewrite (attempts_not_retryable operation options r 1 Null error processed 0 Hfail Hclass).
  - split; [ reflexivity | exact (throw_EnhancedError_rejects error processed Hclass) ].
  - unfold RetryService.isRetryableError. rewrite Hkind. apply andb_false_r.
Qed.

Lemma kind_outside_retryableErrors_not_retried_witness :
  fst (RetryService.executeWithRetry (platform := by_multiplication)
         (always_rejecting network_failure) only_rate_limit)
  = [RetryService.Invoke] /\
  Spec.rejects_wrapping
    (snd (RetryService.executeWithRetry (platform := by_multiplication)
            (always_rejecting network_failure) only_rate_limit))
    network_failure.
Proof.
  exact (kind_outside_retryableErrors_not_retried (platform := by_multiplication)
           (always_rejecting network_failure) only_rate_limit network_failure network_failure
           ltac:(discriminate) eq_refl eq_refl eq_refl).
Defined.

(* ================================================================== *)
(** ** [ErrorHandler.withRetry] against [RetryService.executeWithRetry] *)
(* ================================================================== *)

Lemma Handler_new_merge (retryConfig : Handler.PartialRetryConfig) :
  Handler.new retryConfig = RetryService.merge (Scenario.as_options retryConfig).
Proof. reflexivity. Qed.

Lemma loop_attempts {platform : Platform} {T : Type}
    (retryConfig : Handler.PartialRetryConfig)
    (operation : RetryService.Operation T) (context : string) (remaining : nat) :
  forall (attempt : Z) (last : Value) (calls : nat),
  Scenario.without_warnings
    (fst (Handler.loop (Handler.new retryConfig) operation context remaining attempt last calls))
  = fst (RetryService.attempts operation (Scenario.as_options retryConfig) remaining attempt
           last calls) /\
  match snd (Handler.loop (Handler.new retryConfig) operation context remaining attempt last
               calls) with
  | Handler.Returned settled => settled
  | Handler.Fell lastError => RetryService.throw_EnhancedError lastError
  end
  = snd (RetryService.attempts operation (Scenario.as_options retryConfig) remaining attempt
           last calls).
Proof.
  induction remaining as [ | r IH ]; intros attempt last calls; [ split; reflexivity | ].
  cbn [Handler.loop RetryService.attempts].
  destruct (operation calls) as [ value | error ]; [ split; reflexivity | ].
  destruct (ErrorHandler.processError error) as [ processed | exn ]; [ | split; reflexivity ].
  rewrite Handler_new_merge.
  change (Handler.isRetryable (RetryService.merge (Scenario.as_options retryConfig)) processed)
    with (RetryService.isRetryableError processed
            (RetryService.retryableErrors
               (RetryService.merge (Scenario.as_options retryConfig)))).
  destruct (RetryService.isRetryableError processed _); cbn [negb orb];
    [ | split; reflexivity ].
  destruct (attempt =? RetryService.maxAttempts
                         (RetryService.merge (Scenario.as_options retryConfig)));
    [ split; reflexivity | ].
  rewrite <- Handler_new_merge.
  destruct (IH (attempt + 1) processed (S calls)) as [Htrace Hsettled].
  cbn [fst snd Scenario.without_warnings Scenario.as_options onRetry
       RetryService.optional_call app].
  rewrite Htrace, Hsettled. split; reflexivity.
Qed.

(** X12.  The two retry loops of the repository agree.  For every operation
    and configuration, [ErrorHandler.withRetry] makes the same invocations,
    awaits the same timers and settles the same way as
    [RetryService.executeWithRetry] given the same configuration and no
    callback; it only adds a [console.warn] before each timer. *)
Theorem withRetry_agrees_with_executeWithRetry {platform : Platform} {T : Type}
  (retryConfig : Handler.PartialRetryConfig) (operation : RetryService.Operation T)
  (context : string) :
  Scenario.without_warnings
    (fst (Handler.withRetry (Handler.new retryConfig) operation context))
  = fst (RetryService.executeWithRetry operation (Scenario.as_options retryConfig)) /\
  snd (Handler.withRetry (Handler.new retryConfig) operation context)
  = snd (RetryService.executeWithRetry operation (Scenario.as_options retryConfig)).
Proof.
  unfold Handler.withRetry, RetryService.executeWithRetry. cbn [fst snd].
  rewrite Handler_new_merge at 2 4.
  apply loop_attempts.
Qed.

(* ================================================================== *)
(** ** Further properties of [RetryManager] *)
(* ================================================================== *)

(** X13.  The factory adds nothing to the constructor:
    [createRetryManager(operation, options)] builds the same manager as
    [new RetryManager(operation, options)], because merging the defaults in
    first changes nothing that the constructor's own defaults would not. *)
Theorem createRetryManager_is_new (options : RetryOptions) :
  createRetryManager options = RetryManager.new options.
Proof.
  destruct options as [ [ m | ] [ d | ] [ b | ] [ l | ] onRetry onExhausted ]; reflexivity.
Qed.

Lemma step_attempt_in_range {platform : Platform} {T : Type} (m : RetryManager.Manager)
    (s : RetryManager.Step (T := T)) :
  1 <= RetryService.maxAttempts (RetryManager.options m) ->
  Scenario.attempt_in_range m -> Scenario.attempt_in_range (RetryManager.step m s).
Proof.
  unfold Scenario.attempt_in_range, RetryManager.getState. intros Hmax [Hsame Hrange].
  destruct s as [ | outcome | | outcome | ]; cbn.
  - split; [ exact Hsame | lia ].
  - destruct outcome as [ value | error ]; [ auto | ].
    cbn. destruct (ErrorHandler.processError error); cbn; auto.
  - unfold RetryManager.retry_start, RetryManager.canRetry.
    destruct (RetryManager.lastError (RetryManager.state m)); cbn; [ | auto ].
    destruct (RetryManager.attempt (RetryManager.state m)
              <? RetryManager.maxAttempts (RetryManager.state m)) eqn:Hlt; cbn; [ | auto ].
    destruct (RetryManager.isRetryableError m v && negb (RetryManager.isRetrying
                                                          (RetryManager.state m)));
      cbn; [ | auto ].
    apply Z.ltb_lt in Hlt. split; [ exact Hsame | lia ].
  - destruct outcome as [ value | error ]; cbn; [ auto | ].
    destruct (ErrorHandler.processError error); cbn; auto.
  - split; [ reflexivity | lia ].
Qed.

(** X14.  When the resolved [maxAttempts] is at least 1, every sequence of
    calls on a manager, interleaved or not, keeps [attempt] between 0 and
    [maxAttempts], and the [maxAttempts] of the snapshot equal to that of the
    options. *)
Theorem attempt_never_exceeds_maxAttempts {platform : Platform} {T : Type}
  (options : RetryOptions)
  (steps : list (RetryManager.Step (T := T)))
  (Hmax : 1 <= RetryService.maxAttempts (RetryManager.options (RetryManager.new options))) :
  Scenario.attempt_in_range (RetryManager.run (RetryManager.new options) steps).
Proof.
  assert (Hall : forall m : RetryManager.Manager,
            1 <= RetryService.maxAttempts (RetryManager.options m) ->
            Scenario.attempt_in_range m ->
            Scenario.attempt_in_range (RetryManager.run m steps)).
  { induction steps as [ | s steps IH ]; intros m Hm Hrange; [ exact Hrange | ].
    apply (IH (RetryManager.step m s)).
    - now rewrite step_options.
    - now apply step_attempt_in_range. }
  apply Hall; [ exact Hmax | ].
  split; [ reflexivity | ].
  change (RetryManager.maxAttempts (RetryManager.getState (RetryManager.new options)))
    with (RetryService.maxAttempts (RetryManager.options (RetryManager.new options))).
  change (RetryManager.attempt (RetryManager.getState (RetryManager.new options))) with 0.
  lia.
Qed.

Lemma attempt_never_exceeds_maxAttempts_witness :
  Scenario.attempt_in_range
    (RetryManager.run (platform := by_multiplication) (RetryManager.new (policy 2 1000 2))
       (execute_over_pending_retry ++ [RetryManager.RetryStart; RetryManager.RetryStart])).
Proof.
  exact (attempt_never_exceeds_maxAttempts (platform := by_multiplication) (policy 2 1000 2)
           (execute_over_pending_retry ++ [RetryManager.RetryStart; RetryManager.RetryStart])
           ltac:(discriminate)).
Defined.

(** X15.  [execute()] restarts the count in whatever state the manager is:
    after it fails, [attempt] is 1, [lastError] is the classified failure,
    [isRetrying] is false and [nextRetryDelay] is left as it was; the
    operation was invoked once, the promise rejects with the [EnhancedError]
    built from the classified failure (with the [TypeError] of the
    constructor when the message of that failure cannot be converted to a
    string), and [canRetry()] holds exactly when [maxAttempts] exceeds 1 and
    the failure is retryable and of a retried kind.  After it succeeds,
    [lastError] is null and [canRetry()] is false. *)
Theorem execute_outcome {T : Type} (m : RetryManager.Manager) (error processed : Value)
  (value : T)
  (Hclass : ErrorHandler.processError error = Normal processed) :
  let failed := RetryManager.execute (T := T) m (RetryService.Rejected error) in
  let succeeded := RetryManager.execute m (RetryService.Resolved value) in
  RetryManager.getState (fst (fst failed))
  = {| RetryManager.attempt := 1;
       RetryManager.maxAttempts := RetryManager.maxAttempts (RetryManager.getState m);
       RetryManager.lastError := Some processed;
       RetryManager.isRetrying := false;
       RetryManager.nextRetryDelay := RetryManager.nextRetryDelay (RetryManager.getState m) |} /\
  snd (fst failed) = [RetryService.Invoke] /\
  Spec.rejects_from (snd failed) processed /\
  RetryManager.canRetry (fst (fst failed))
  = (1 <? RetryManager.maxAttempts (RetryManager.getState m))
    && RetryManager.isRetryableError m processed /\
  RetryManager.getState (fst (fst succeeded))
  = {| RetryManager.attempt := 1;
       RetryManager.maxAttempts := RetryManager.maxAttempts (RetryManager.getState m);
       RetryManager.lastError := None;
       RetryManager.isRetrying := false;
       RetryManager.nextRetryDelay := RetryManager.nextRetryDelay (RetryManager.getState m) |} /\
  snd succeeded = RetryService.Resolved value /\
  RetryManager.canRetry (fst (fst succeeded)) = false.
Proof.
  intros failed succeeded. subst failed succeeded.
  unfold RetryManager.execute, RetryManager.execute_start, RetryManager.execute_settle.
  cbn [fst snd]. rewrite Hclass. cbn [fst snd].
  unfold RetryManager.getState, RetryManager.canRetry. cbn.
  repeat split.
  - exact (throw_EnhancedError_rejects error processed Hclass).
  - unfold RetryManager.isRetryableError. cbn. now rewrite andb_true_r.
Qed.

Lemma execute_outcome_witness :
  RetryManager.canRetry
    (fst (fst (RetryManager.execute (T := Value) (retry_in_flight (policy 3 1000 2))
                 (RetryService.Rejected (ApiFailure 429 "Rate limit exceeded")))))
  = true.
Proof.
  exact (proj1 (proj2 (proj2 (proj2
    (execute_outcome (retry_in_flight (policy 3 1000 2))
       (ApiFailure 429 "Rate limit exceeded") _ (Str "letter") eq_refl))))).
Defined.

Lemma retry_accepted {platform : Platform} {T : Type} (m : RetryManager.Manager)
    (outcome : RetryService.Settled T) :
  RetryManager.canRetry m = true ->
  RetryManager.retry m outcome
  = (fst (fst (RetryManager.retry_settle (fst (fst (RetryManager.retry_start m))) outcome)),
     RetryService.optional_call (fst (RetryManager.retryCallbacks m))
       (RetryService.OnRetry (RetryManager.attempt (RetryManager.state m) + 1)
          (match RetryManager.lastError (RetryManager.state m) with
           | Some e => e
           | None => Null
           end))
     ++ [RetryService.Invoke]
     ++ snd (fst (RetryManager.retry_settle (fst (fst (RetryManager.retry_start m))) outcome)),
     snd (RetryManager.retry_settle (fst (fst (RetryManager.retry_start m))) outcome)).
Proof.
  intros Hcan. unfold RetryManager.retry, RetryManager.retry_start. rewrite Hcan.
  cbn [negb fst snd].
  destruct (RetryManager.retry_settle _ outcome) as [[m' events] settled].
  cbn [fst snd]. now rewrite <- app_assoc.
Qed.

(** X16.  A [retry()] that is accepted and succeeds: [attempt] is
    incremented, [lastError] is cleared, [isRetrying] is false again,
    [onRetry] was called once with the new attempt number and the previous
    error, before the single invocation, and the value is returned unchanged;
    [canRetry()] is then false. *)
Theorem retry_success {platform : Platform} {T : Type} (m : RetryManager.Manager)
  (previous : Value) (value : T)
  (Hcan : RetryManager.canRetry m = true)
  (Hprevious : RetryManager.lastError (RetryManager.getState m) = Some previous) :
  let result := RetryManager.retry m (RetryService.Resolved value) in
  RetryManager.getState (fst (fst result))
  = {| RetryManager.attempt := RetryManager.attempt (RetryManager.getState m) + 1;
       RetryManager.maxAttempts := RetryManager.maxAttempts (RetryManager.getState m);
       RetryManager.lastError := None;
       RetryManager.isRetrying := false;
       RetryManager.nextRetryDelay :=
         RetryManager.calculateDelay m (RetryManager.attempt (RetryManager.getState m) + 1) |} /\
  snd (fst result)
  = RetryService.optional_call (fst (RetryManager.retryCallbacks m))
      (RetryService.OnRetry (RetryManager.attempt (RetryManager.getState m) + 1) previous)
    ++ [RetryService.Invoke] /\
  snd result = RetryService.Resolved value /\
  RetryManager.canRetry (fst (fst result)) = false.
Proof.
  intros result. subst result. rewrite (retry_accepted m _ Hcan).
  unfold RetryManager.getState in *. rewrite Hprevious.
  unfold RetryManager.retry_start. rewrite Hcan.
  cbn. repeat split.
Qed.

Lemma retry_success_witness :
  let result := RetryManager.retry (platform := by_multiplication)
                  (failed_once (policy 3 1000 2)) (RetryService.Resolved (Str "letter")) in
  RetryManager.attempt (RetryManager.getState (fst (fst result))) = 2 /\
  RetryManager.lastError (RetryManager.getState (fst (fst result))) = None /\
  snd (fst result) = [RetryService.OnRetry 2 network_failure; RetryService.Invoke] /\
  snd result = RetryService.Resolved (Str "letter").
Proof.
  pose proof (retry_success (platform := by_multiplication) (failed_once (policy 3 1000 2))
                network_failure (Str "letter") eq_refl eq_refl)
    as (Hstate & Hevents & Hsettled & _).
  cbv zeta. rewrite Hstate. repeat split; assumption.
Defined.

(** What an accepted [retry()] that fails leaves behind. *)
Lemma retry_failure_facts {platform : Platform} {T : Type} (m : RetryManager.Manager)
  (error processed : Value)
  (Hcan : RetryManager.canRetry m = true)
  (Hclass : ErrorHandler.processError error = Normal processed) :
  let result := RetryManager.retry (T := T) m (RetryService.Rejected error) in
  RetryManager.attempt (RetryManager.getState (fst (fst result)))
  = RetryManager.attempt (RetryManager.getState m) + 1 /\
  RetryManager.lastError (RetryManager.getState (fst (fst result))) = Some processed /\
  RetryManager.isRetrying (RetryManager.getState (fst (fst result))) = false /\
  RetryService.invocations (snd (fst result)) = 1%nat /\
  RetryService.onMaxAttemptsReached_calls (snd (fst result))
  = (if snd (RetryManager.retryCallbacks m)
        && (RetryManager.maxAttempts (RetryManager.getState m)
            <=? RetryManager.attempt (RetryManager.getState m) + 1)
     then [processed] else []) /\
  Spec.rejects_from (snd result) processed.
Proof.
  intros result. subst result. rewrite (retry_accepted m _ Hcan).
  unfold RetryManager.getState. unfold RetryManager.retry_start. rewrite Hcan.
  cbn [negb fst snd RetryManager.retry_settle RetryManager.set_state RetryManager.state
       RetryManager.attempt RetryManager.maxAttempts RetryManager.retryCallbacks].
  rewrite Hclass.
  cbn [negb fst snd RetryManager.set_state RetryManager.state RetryManager.attempt
       RetryManager.maxAttempts RetryManager.lastError RetryManager.isRetrying
       RetryManager.retryCallbacks].
  rewrite Z.geb_leb.
  repeat split.
  - destruct (fst (RetryManager.retryCallbacks m)), (snd (RetryManager.retryCallbacks m)),
      (RetryManager.maxAttempts (RetryManager.state m)
       <=? RetryManager.attempt (RetryManager.state m) + 1); reflexivity.
  - destruct (fst (RetryManager.retryCallbacks m)), (snd (RetryManager.retryCallbacks m)),
      (RetryManager.maxAttempts (RetryManager.state m)
       <=? RetryManager.attempt (RetryManager.state m) + 1); reflexivity.
  - exact (throw_EnhancedError_rejects error processed Hclass).
Qed.

(** X17.  A [retry()] that is accepted and fails stores the new classified
    failure and clears [isRetrying]; it calls [onMaxAttemptsReached] exactly
    when the attempt it ran reached [maxAttempts], and then whatever the new
    failure is, retryable or not (the engine calls it for retryable failures
    only).  It rejects with the [EnhancedError] built from the new failure,
    or with the [TypeError] of the constructor when the message of that
    failure cannot be converted to a string. *)
Theorem retry_failure {platform : Platform} {T : Type} (m : RetryManager.Manager)
  (error processed : Value)
  (Hcan : RetryManager.canRetry m = true)
  (Hclass : ErrorHandler.processError error = Normal processed) :
  let result := RetryManager.retry (T := T) m (RetryService.Rejected error) in
  RetryManager.attempt (RetryManager.getState (fst (fst result)))
  = RetryManager.attempt (RetryManager.getState m) + 1 /\
  RetryManager.lastError (RetryManager.getState (fst (fst result))) = Some processed /\
  RetryManager.isRetrying (RetryManager.getState (fst (fst result))) = false /\
  RetryService.invocations (snd (fst result)) = 1%nat /\
  RetryService.onMaxAttemptsReached_calls (snd (fst result))
  = (if snd (RetryManager.retryCallbacks m)
        && (RetryManager.maxAttempts (RetryManager.getState m)
            <=? RetryManager.attempt (RetryManager.getState m) + 1)
     then [processed] else []) /\
  Spec.rejects_from (snd result) processed.
Proof. exact (retry_failure_facts m error processed Hcan Hclass). Qed.

Lemma retry_failure_witness :
  let result := RetryManager.retry (platform := by_multiplication) (T := Value)
                  (failed_once (policy 2 1000 2))
                  (RetryService.Rejected (ApiFailure 401 "Invalid API key")) in
  RetryService.onMaxAttemptsReached_calls (snd (fst result))
  = [Object PlainObject
       [("type", Str "API_KEY_INVALID"); ("message", Str "Invalid API key");
        ("code", Number 401); ("retryable", Boolean false)]] /\
  Spec.rejects_wrapping (snd result)
    (Object PlainObject
       [("type", Str "API_KEY_INVALID"); ("message", Str "Invalid API key");
        ("code", Number 401); ("retryable", Boolean false)]).
Proof.
  exact (proj2 (proj2 (proj2 (proj2
    (retry_failure (platform := by_multiplication) (T := Value) (failed_once (policy 2 1000 2))
       (ApiFailure 401 "Invalid API key") _ eq_refl eq_refl))))).
Defined.

(** X18.  When the classifier raises while a [retry()] settles, the
    [TypeError] escapes before [isRetrying] is cleared: the promise rejects
    with it, [isRetrying] stays true, and every later [retry()] is refused,
    until [execute()] or [reset()] is called. *)
Theorem retry_stuck_after_classifier_failure {platform : Platform} {T : Type}
  (m : RetryManager.Manager)
  (error exn : Value) (later : list (RetryService.Settled T))
  (Hcan : RetryManager.canRetry m = true)
  (Hclass : ErrorHandler.processError error = Throw exn) :
  let result := RetryManager.retry (T := T) m (RetryService.Rejected error) in
  snd result = RetryService.Rejected TypeError /\
  RetryManager.isRetrying (RetryManager.getState (fst (fst result))) = true /\
  RetryManager.canRetry (fst (fst result)) = false /\
  Scenario.retry_each (fst (fst result)) later = (fst (fst result), []) /\
  RetryManager.isRetrying (RetryManager.getState (RetryManager.reset (fst (fst result))))
  = false.
Proof.
  intros result. subst result. rewrite (retry_accepted m _ Hcan).
  pose proof (processError_throws_only_TypeError _ _ Hclass) as ->.
  unfold RetryManager.retry_start. rewrite Hcan.
  cbn [negb fst snd RetryManager.retry_settle]. rewrite Hclass. cbn [fst snd].
  set (stuck := RetryManager.set_state m _).
  assert (Hbusy : RetryManager.isRetrying (RetryManager.getState stuck) = true)
    by reflexivity.
  pose proof (canRetry_false_while_retrying stuck Hbusy) as Hrefuse.
  repeat split; try assumption.
  induction later as [ | outcome later IH ]; [ reflexivity | ].
  cbn [Scenario.retry_each]. rewrite (retry_refused stuck outcome Hrefuse).
  cbn [fst snd]. now rewrite IH.
Qed.

Lemma retry_stuck_after_classifier_failure_witness :
  RetryManager.canRetry
    (fst (fst (RetryManager.retry (platform := by_multiplication) (T := Value)
                 (failed_once (policy 3 1000 2))
                 (RetryService.Rejected structured_failure)))) = false.
Proof.
  exact (proj1 (proj2 (proj2
    (retry_stuck_after_classifier_failure (platform := by_multiplication) (T := Value)
       (failed_once (policy 3 1000 2))
       structured_failure TypeError [] eq_refl eq_refl)))).
Defined.

Lemma invocations_app (l1 l2 : list RetryService.Event) :
  RetryService.invocations (l1 ++ l2)
  = (RetryService.invocations l1 + RetryService.invocations l2)%nat.
Proof. unfold RetryService.invocations. now rewrite filter_app, length_app. Qed.

Lemma onMaxAttemptsReached_calls_app (l1 l2 : list RetryService.Event) :
  RetryService.onMaxAttemptsReached_calls (l1 ++ l2)
  = RetryService.onMaxAttemptsReached_calls l1 ++ RetryService.onMaxAttemptsReached_calls l2.
Proof.
  induction l1 as [ | event l1 IH ]; [ reflexivity | ].
  destruct event; cbn; now rewrite ?IH.
Qed.

Lemma canRetry_idle (m : RetryManager.Manager) (e : Value) :
  RetryManager.lastError (RetryManager.state m) = Some e ->
  RetryManager.isRetryableError m e = true ->
  RetryManager.isRetrying (RetryManager.state m) = false ->
  RetryManager.canRetry m
  = (RetryManager.attempt (RetryManager.state m)
     <? RetryManager.maxAttempts (RetryManager.state m)).
Proof.
  intros Hlast Hretry Hidle. unfold RetryManager.canRetry.
  rewrite Hlast, Hretry, Hidle. cbn. now rewrite !andb_true_r.
Qed.

(** Retries on a manager whose last failure is to be retried, when every
    retry fails retryably as well. *)
Lemma retry_each_failing {platform : Platform} {T : Type}
    (outcomes : list (RetryService.Settled T)) :
  forall (m : RetryManager.Manager) (e0 : Value),
  RetryManager.lastError (RetryManager.state m) = Some e0 ->
  RetryManager.isRetryableError m e0 = true ->
  RetryManager.isRetrying (RetryManager.state m) = false ->
  RetryManager.attempt (RetryManager.state m) <= RetryManager.maxAttempts (RetryManager.state m) ->
  Forall (fun outcome => exists p, Scenario.fails_retryably m outcome p) outcomes ->
  let n := Z.of_nat (List.length outcomes) in
  let a := RetryManager.attempt (RetryManager.state m) in
  let M := RetryManager.maxAttempts (RetryManager.state m) in
  let r := Scenario.retry_each m outcomes in
  RetryManager.attempt (RetryManager.state (fst r)) = Z.min (a + n) M /\
  RetryManager.maxAttempts (RetryManager.state (fst r)) = M /\
  RetryManager.canRetry (fst r) = (a + n <? M) /\
  RetryService.invocations (snd r) = Z.to_nat (Z.min (a + n) M - a) /\
  List.length (RetryService.onMaxAttemptsReached_calls (snd r))
  = (if snd (RetryManager.retryCallbacks m) && (a <? M) && (M <=? a + n)
     then 1%nat else 0%nat).
Proof.
  induction outcomes as [ | outcome outcomes IH ];
    intros m e0 Hlast Hretry Hidle Hle Hall n a M r; subst n a M r.
  - cbn [Scenario.retry_each fst snd List.length Z.of_nat].
    rewrite Z.add_0_r, (canRetry_idle m e0 Hlast Hretry Hidle).
    repeat split; try (cbn; lia).
    destruct (snd (RetryManager.retryCallbacks m)); cbn; [ | reflexivity ].
    destruct (RetryManager.attempt (RetryManager.state m)
              <? RetryManager.maxAttempts (RetryManager.state m)) eqn:Hlt;
      cbn; [ | reflexivity ].
    apply Z.ltb_lt in Hlt.
    destruct (RetryManager.maxAttempts (RetryManager.state m)
              <=? RetryManager.attempt (RetryManager.state m)) eqn:Hge; [ | reflexivity ].
    apply Z.leb_le in Hge. lia.
  - inversion Hall as [ | ? ? (p & error & -> & Hclass & Hp) Hrest ]; subst.
    cbn [Scenario.retry_each List.length].
    pose proof (canRetry_idle m e0 Hlast Hretry Hidle) as Hcan.
    destruct (RetryManager.attempt (RetryManager.state m)
              <? RetryManager.maxAttempts (RetryManager.state m)) eqn:Hlt.
    + apply Z.ltb_lt in Hlt.
      destruct (retry_failure_facts (T := T) m error p Hcan Hclass)
        as (Hattempt & Hnew & Hidle' & Hinv & Hexhausted & _).
      set (called := RetryManager.retry m (RetryService.Rejected error)) in *.
      assert (Hoptions : RetryManager.options (fst (fst called)) = RetryManager.options m
                         /\ RetryManager.retryCallbacks (fst (fst called))
                            = RetryManager.retryCallbacks m
                         /\ RetryManager.maxAttempts (RetryManager.state (fst (fst called)))
                            = RetryManager.maxAttempts (RetryManager.state m)).
      { subst called. rewrite (retry_accepted m _ Hcan).
        unfold RetryManager.retry_start. rewrite Hcan. cbn. rewrite Hclass. cbn. auto. }
      destruct Hoptions as (Hoptions & Hcallbacks & Hmax).
      unfold RetryManager.getState in *.
      assert (Hsame : forall e, RetryManager.isRetryableError (fst (fst called)) e
                                = RetryManager.isRetryableError m e)
        by (intros e; unfold RetryManager.isRetryableError; now rewrite Hoptions).
      destruct (IH (fst (fst called)) p Hnew) as (Hfinal & Hmax' & Hcan' & Hinv' & Hexhausted').
      * now rewrite Hsame.
      * exact Hidle'.
      * rewrite Hattempt, Hmax. lia.
      * apply Forall_forall. intros o Ho.
        destruct (proj1 (Forall_forall _ _) Hrest o Ho) as (q & err & Hq & Hcq & Hrq).
        exists q, err. rewrite Hsame. auto.
      * rewrite Hattempt, Hmax in *. rewrite Hcallbacks in Hexhausted'.
        cbn [fst snd]. rewrite invocations_app, onMaxAttemptsReached_calls_app, length_app,
          Hinv, Hinv', Hexhausted, Hexhausted', Hfinal, Hmax', Hcan'.
        rewrite Nat2Z.inj_succ.
        repeat split; try lia.
        -- f_equal. lia.
        -- destruct (snd (RetryManager.retryCallbacks m)); cbn [andb List.length];
             [ | destruct (_ <? _), (_ <=? _); reflexivity ].
           repeat match goal with
                  | |- context [ ?x <? ?y ] => destruct (Z.ltb_spec x y)
                  | |- context [ ?x <=? ?y ] => destruct (Z.leb_spec x y)
                  end; cbn [andb List.length Nat.add]; lia.
    + apply Z.ltb_ge in Hlt.
      rewrite (retry_refused m _ Hcan). cbn [fst snd app].
      destruct (IH m e0 Hlast Hretry Hidle Hle Hrest)
        as (Hfinal & Hmax' & Hcan' & Hinv' & Hexhausted').
      rewrite Hfinal, Hmax', Hcan', Hinv', Hexhausted', Nat2Z.inj_succ.
      repeat split; try lia.
      * repeat match goal with
               | |- context [ ?x <? ?y ] => destruct (Z.ltb_spec x y)
               end; lia.
      * destruct (snd (RetryManager.retryCallbacks m)); cbn [andb]; [ | reflexivity ].
        repeat match goal with
               | |- context [ ?x <? ?y ] => destruct (Z.ltb_spec x y)
               | |- context [ ?x <=? ?y ] => destruct (Z.leb_spec x y)
               end; cbn [andb]; lia.
Qed.

(** X19.  Driven by hand, the manager allows the same number of invocations
    as the engine.  On a new manager with [maxAttempts = M >= 1], when
    [execute()] and then [n] calls of [retry()] all fail retryably, the
    operation has been invoked [min (1 + n) M] times, [attempt] is that
    number, the retries beyond the budget were refused without invoking it,
    and [canRetry()] holds exactly while [1 + n < M].
    [onMaxAttemptsReached] has been called once if the budget was used up by
    a retry, and never when [M = 1], where [execute()] alone uses it up. *)
Theorem manager_attempt_budget {platform : Platform} {T : Type} (options : RetryOptions)
  (first : RetryService.Settled T) (outcomes : list (RetryService.Settled T))
  (Hmax : 1 <= RetryManager.maxAttempts (RetryManager.getState (RetryManager.new options)))
  (Hfirst : exists p, Scenario.fails_retryably (RetryManager.new options) first p)
  (Hall : Forall (fun outcome =>
                    exists p, Scenario.fails_retryably (RetryManager.new options) outcome p)
            outcomes) :
  let M := RetryManager.maxAttempts (RetryManager.getState (RetryManager.new options)) in
  let n := Z.of_nat (List.length outcomes) in
  let r := Scenario.execute_then_retry options first outcomes in
  RetryManager.attempt (RetryManager.getState (fst r)) = Z.min (1 + n) M /\
  RetryService.invocations (snd r) = Z.to_nat (Z.min (1 + n) M) /\
  RetryManager.canRetry (fst r) = (1 + n <? M) /\
  List.length (RetryService.onMaxAttemptsReached_calls (snd r))
  = (if onMaxAttemptsReached options && (1 <? M) && (M <=? 1 + n) then 1%nat else 0%nat).
Proof.
  intros M n r. subst M n r.
  destruct Hfirst as (p & error & -> & Hclass & Hp).
  unfold Scenario.execute_then_retry, RetryManager.execute, RetryManager.execute_start,
    RetryManager.execute_settle, RetryManager.getState in *.
  cbn [fst snd]. rewrite Hclass. cbn [fst snd].
  set (failed := RetryManager.set_state _ _).
  destruct (retry_each_failing outcomes failed p eq_refl Hp eq_refl Hmax Hall)
    as (Hattempt & _ & Hcan & Hinv & Hexhausted).
  change (RetryManager.attempt (RetryManager.state failed)) with 1 in *.
  change (RetryManager.maxAttempts (RetryManager.state failed))
    with (RetryManager.maxAttempts (RetryManager.state (RetryManager.new options))) in *.
  change (snd (RetryManager.retryCallbacks failed)) with (onMaxAttemptsReached options)
    in Hexhausted.
  change ([RetryService.Invoke] ++ snd (Scenario.retry_each failed outcomes))
    with (RetryService.Invoke :: snd (Scenario.retry_each failed outcomes)).
  change (RetryService.invocations
            (RetryService.Invoke :: snd (Scenario.retry_each failed outcomes)))
    with (S (RetryService.invocations (snd (Scenario.retry_each failed outcomes)))).
  change (RetryService.onMaxAttemptsReached_calls
            (RetryService.Invoke :: snd (Scenario.retry_each failed outcomes)))
    with (RetryService.onMaxAttemptsReached_calls (snd (Scenario.retry_each failed outcomes))).
  rewrite Hattempt, Hcan, Hexhausted, Hinv. repeat split. lia.
Qed.

Lemma manager_attempt_budget_witness :
  let r := Scenario.execute_then_retry (platform := by_multiplication) (T := Value)
             (policy 3 1000 2) (RetryService.Rejected network_failure)
             [RetryService.Rejected network_failure; RetryService.Rejected network_failure;
              RetryService.Rejected network_failure] in
  RetryManager.attempt (RetryManager.getState (fst r)) = 3 /\
  RetryService.invocations (snd r) = 3%nat /\
  RetryManager.canRetry (fst r) = false /\
  List.length (RetryService.onMaxAttemptsReached_calls (snd r)) = 1%nat.
Proof.
  assert (Hfails : exists p, Scenario.fails_retryably (RetryManager.new (policy 3 1000 2))
                               (RetryService.Rejected (T := Value) network_failure) p)
    by (exists network_failure, network_failure; repeat split).
  exact (manager_attempt_budget (platform := by_multiplication) (policy 3 1000 2)
           (RetryService.Rejected network_failure)
           [RetryService.Rejected network_failure; RetryService.Rejected network_failure;
            RetryService.Rejected network_failure]
           ltac:(discriminate) Hfails
           (Forall_cons _ Hfails (Forall_cons _ Hfails (Forall_cons _ Hfails (Forall_nil _))))).
Defined.

(* ================================================================== *)
(** ** The conversions of [services/openaiService.ts] *)
(* ================================================================== *)

(** The kinds [responseToAppError] can give. *)
Ltac kind_is t :=
  exists t; repeat split; try reflexivity; cbn [In]; auto 10.

(** What [responseToAppError] returns: an error shaped like an [AppError],
    with the flag of its kind and the status code, 500 standing for a missing
    or falsy one. *)
Lemma responseToAppError_returns (response e : Value) :
  OpenAIService.responseToAppError response = Normal e ->
  ErrorHandler.processError e = Normal e /\
  get e "code" = or_else (get response "statusCode") (Number 500) /\
  exists t,
    get e "type" = ErrorType_value t /\
    get e "retryable" = Boolean (Spec.retryable_of_kind t) /\
    In t [API_KEY_MISSING; API_KEY_INVALID; API_RATE_LIMIT; API_CONTENT_POLICY;
          VALIDATION_ERROR; NETWORK_ERROR; API_GENERAL_ERROR].
Proof.
  unfold OpenAIService.responseToAppError.
  set (statusCode := or_else (get response "statusCode") (Number 500)).
  set (message := or_else (get response "error") (Str "Unknown error")).
  destruct message as [ | | flag | number | text | cls props ] eqn:Hmessage;
    try (destruct statusCode as [ | | | n | | ]; cbn; try discriminate;
         destruct (n =? 401); [ discriminate | ];
         destruct (n =? 429); [ intros [= <-]; repeat split; kind_is API_RATE_LIMIT | ];
         destruct (n =? 400); [ discriminate | ];
         destruct (n =? 0); [ intros [= <-]; repeat split; kind_is NETWORK_ERROR | ];
         destruct (n =? 408); [ intros [= <-]; repeat split; kind_is NETWORK_ERROR | ];
         discriminate).
  cbn [call_includes bind].
  destruct statusCode as [ | | | n | | ];
    try (destruct (string_includes text "Network error"); intros [= <-]; repeat split;
         [ kind_is NETWORK_ERROR | kind_is API_GENERAL_ERROR ]).
  destruct (n =? 401).
  { destruct (string_includes text "API key"); intros [= <-]; repeat split;
      [ kind_is API_KEY_INVALID | kind_is API_KEY_MISSING ]. }
  destruct (n =? 429); [ intros [= <-]; repeat split; kind_is API_RATE_LIMIT | ].
  destruct (n =? 400).
  { destruct (string_includes text "Content policy violation"); intros [= <-]; repeat split;
      [ kind_is API_CONTENT_POLICY | kind_is VALIDATION_ERROR ]. }
  destruct (n =? 0); [ intros [= <-]; repeat split; kind_is NETWORK_ERROR | ].
  destruct (n =? 408); [ intros [= <-]; repeat split; kind_is NETWORK_ERROR | ].
  destruct (string_includes text "Network error"); intros [= <-]; repeat split;
    [ kind_is NETWORK_ERROR | kind_is API_GENERAL_ERROR ].
Qed.

(** The responses [handleApiError] can build. *)
Lemma handleApiError_response (raised response : Value) :
  OpenAIService.handleApiError raised = Normal response ->
  response = OpenAIService.failure
               "Invalid API key. Please check your OpenAI API key configuration." (Number 401)
  \/ response = OpenAIService.failure
                  "Rate limit exceeded. Please wait a moment before trying again." (Number 429)
  \/ response = OpenAIService.failure content_policy_message (Number 400)
  \/ (exists text statusCode,
        response = OpenAIService.failure ("API Error: " ++ text)%string statusCode /\
        truthy statusCode = true /\
        OpenAIService.is_number statusCode 401 = false /\
        OpenAIService.is_number statusCode 429 = false)
  \/ response = OpenAIService.failure
                  "Network error. Please check your internet connection and try again."
                  (Number 0)
  \/ response = OpenAIService.failure "Request timeout. Please try again." (Number 408)
  \/ (exists text,
        response = OpenAIService.failure ("Unexpected error: " ++ text)%string (Number 500)).
Proof.
  unfold OpenAIService.handleApiError.
  destruct (truthy (get raised "error")).
  - set (statusCode := or_else (or_else (get raised "statusCode") (get raised "status"))
                         (Number 500)).
    assert (Htruthy : truthy statusCode = true).
    { subst statusCode. unfold or_else.
      destruct (truthy (get raised "statusCode")) eqn:H1; [ now rewrite H1 | ].
      destruct (truthy (get raised "status")) eqn:H2; [ now rewrite H2 | reflexivity ]. }
    destruct (OpenAIService.is_number statusCode 401) eqn:H401; cbn [orb];
      [ intros [= <-]; left; reflexivity | ].
    destruct (OpenAIService.is_string _ "invalid_api_key");
      [ intros [= <-]; left; reflexivity | ].
    destruct (OpenAIService.is_number statusCode 429) eqn:H429; cbn [orb];
      [ intros [= <-]; right; left; reflexivity | ].
    destruct (OpenAIService.is_string _ "rate_limit_exceeded");
      [ intros [= <-]; right; left; reflexivity | ].
    destruct (OpenAIService.is_number statusCode 400 && _);
      [ intros [= <-]; do 2 right; left; reflexivity | ].
    destruct (String_ _) as [ text | ]; cbn [bind]; [ | discriminate ].
    intros [= <-]. do 3 right. left. do 2 eexists. split; [ reflexivity | auto ].
  - destruct (OpenAIService.is_string (get raised "code") "NETWORK_ERROR").
    { cbn [bind]. intros [= <-]. do 4 right. left. reflexivity. }
    destruct (OpenAIService.optional_includes (get raised "message") "network")
      as [ [ | ] | ]; cbn [bind];
      [ intros [= <-]; do 4 right; left; reflexivity | | discriminate ].
    destruct (OpenAIService.is_string (get raised "code") "ECONNABORTED").
    { cbn [bind]. intros [= <-]. do 5 right. left. reflexivity. }
    destruct (OpenAIService.optional_includes (get raised "message") "timeout")
      as [ [ | ] | ]; cbn [bind];
      [ intros [= <-]; do 5 right; left; reflexivity | | discriminate ].
    destruct (String_ _) as [ text | ]; cbn [bind]; [ | discriminate ].
    intros [= <-]. do 6 right. eexists. reflexivity.
Qed.

(** X20.  Whatever the provider's client raised, the error the application
    throws for it ([responseToAppError] of the response built by
    [handleApiError]) is returned unchanged by the classifier, carries the
    flag of its kind and a truthy code, and has one of six kinds: never
    API_KEY_MISSING, PDF_GENERATION_ERROR or UNKNOWN_ERROR. *)
Theorem reported_failure_kinds (raised e : Value)
  (Hreported : OpenAIService.reported raised = Normal e) :
  ErrorHandler.processError e = Normal e /\
  truthy (get e "code") = true /\
  exists t,
    get e "type" = ErrorType_value t /\
    get e "retryable" = Boolean (Spec.retryable_of_kind t) /\
    In t [API_KEY_INVALID; API_RATE_LIMIT; API_CONTENT_POLICY; VALIDATION_ERROR;
          NETWORK_ERROR; API_GENERAL_ERROR].
Proof.
  revert Hreported. unfold OpenAIService.reported.
  destruct (OpenAIService.handleApiError raised) as [ response | exn ] eqn:Hresponse;
    cbn [bind]; [ | discriminate ].
  intros Hconverted.
  destruct (responseToAppError_returns response e Hconverted)
    as (Hpass & Hcode & t & Hkind & Hflag & Hin).
  split; [ exact Hpass | ].
  destruct (handleApiError_response raised response Hresponse)
    as [ -> | [ -> | [ -> | [ (text & statusCode & -> & Hstatus & H401 & H429)
       | [ -> | [ -> | (text & ->) ] ] ] ] ] ];
    try solve [ cbv in Hconverted; injection Hconverted as <-;
                split; [ reflexivity | ];
                exists t; repeat split; try assumption;
                destruct t; try (cbv in Hkind; discriminate Hkind); cbn [In]; auto 10 ].
  - split.
    { rewrite Hcode.
      change (get (OpenAIService.failure ("API Error: " ++ text) statusCode) "statusCode")
        with statusCode.
      unfold or_else. now rewrite Hstatus, Hstatus. }
    exists t. repeat split; try assumption.
    revert Hconverted Hkind. unfold OpenAIService.responseToAppError.
    change (get (OpenAIService.failure ("API Error: " ++ text) statusCode) "statusCode")
      with statusCode.
    change (or_else (get (OpenAIService.failure ("API Error: " ++ text) statusCode) "error")
              (Str "Unknown error"))
      with (Str ("API Error: " ++ text)).
    unfold or_else at 1. rewrite Hstatus. cbn [call_includes bind].
    destruct statusCode as [ | | | n | | ];
      try (destruct (string_includes _ "Network error"); intros [= <-] Hkind;
           apply ErrorType_value_inj in Hkind; subst t; cbn [In]; auto 10).
    cbn [OpenAIService.is_number] in H401. rewrite H401.
    destruct (n =? 429); [ intros [= <-] Hkind;
      apply ErrorType_value_inj in Hkind; subst t; cbn [In]; auto 10 | ].
    destruct (n =? 400).
    { destruct (string_includes _ "Content policy violation"); intros [= <-] Hkind;
        apply ErrorType_value_inj in Hkind; subst t; cbn [In]; auto 10. }
    destruct (n =? 0); [ intros [= <-] Hkind;
      apply ErrorType_value_inj in Hkind; subst t; cbn [In]; auto 10 | ].
    destruct (n =? 408); [ intros [= <-] Hkind;
      apply ErrorType_value_inj in Hkind; subst t; cbn [In]; auto 10 | ].
    destruct (string_includes _ "Network error"); intros [= <-] Hkind;
      apply ErrorType_value_inj in Hkind; subst t; cbn [In]; auto 10.
  - split.
    { rewrite Hcode. reflexivity. }
    exists t. repeat split; try assumption.
    revert Hconverted Hkind. unfold OpenAIService.responseToAppError.
    change (or_else (get (OpenAIService.failure ("Unexpected error: " ++ text) (Number 500))
                       "statusCode") (Number 500)) with (Number 500).
    change (or_else (get (OpenAIService.failure ("Unexpected error: " ++ text) (Number 500))
                       "error") (Str "Unknown error"))
      with (Str ("Unexpected error: " ++ text)).
    cbn [call_includes bind Z.eqb Pos.eqb].
    destruct (string_includes _ "Network error"); intros [= <-] Hkind;
      apply ErrorType_value_inj in Hkind; subst t; cbn [In]; auto 10.
Qed.

Lemma reported_failure_kinds_witness :
  ErrorHandler.processError
    (Object PlainObject
       [("type", Str "API_CONTENT_POLICY"); ("message", Str content_policy_message);
        ("code", Number 400); ("retryable", Boolean false)])
  = Normal
      (Object PlainObject
         [("type", Str "API_CONTENT_POLICY"); ("message", Str content_policy_message);
          ("code", Number 400); ("retryable", Boolean false)]).
Proof.
  exact (proj1 (reported_failure_kinds
    (Object PlainObject
       [("error", Object PlainObject
                    [("message", Str "Rejected"); ("type", Str "content_policy_violation")]);
        ("status", Number 400)]) _ eq_refl)).
Defined.

Lemma includes_with_default (default msg sub : string) :
  string_includes default sub = false ->
  string_includes (if String.eqb msg "" then default else msg) sub = string_includes msg sub.
Proof.
  intros Hdefault. destruct (String.eqb_spec msg "") as [-> | _]; [ | reflexivity ].
  rewrite Hdefault. destruct sub; [ destruct default; discriminate Hdefault | reflexivity ].
Qed.

(** [responseToAppError] on a failed response whose [error] is a string. *)
Lemma responseToAppError_ApiFailure (n : Z) (msg : string) :
  exists a,
    OpenAIService.responseToAppError (ApiFailure n msg) = Normal a /\
    get a "code" = Number (if n =? 0 then 500 else n) /\
    get a "type"
    = ErrorType_value
        (if n =? 401 then
           if string_includes msg "API key" then API_KEY_INVALID else API_KEY_MISSING
         else if n =? 429 then API_RATE_LIMIT
         else if n =? 400 then
           if string_includes msg "Content policy violation"
           then API_CONTENT_POLICY else VALIDATION_ERROR
         else if n =? 408 then NETWORK_ERROR
         else if string_includes msg "Network error" then NETWORK_ERROR
         else API_GENERAL_ERROR) /\
    get a "retryable" = Boolean (negb ((n =? 401) || (n =? 400))).
Proof.
  unfold OpenAIService.responseToAppError.
  change (get (ApiFailure n msg) "statusCode") with (Number n).
  change (get (ApiFailure n msg) "error") with (Str msg).
  rewrite or_else_Str. cbn [call_includes bind].
  rewrite !includes_with_default by reflexivity.
  unfold or_else, truthy.
  destruct (Z.eqb_spec n 0) as [-> | H0]; cbn [negb].
  { cbn [Z.eqb Pos.eqb orb negb].
    destruct (string_includes msg "Network error"); eexists; repeat split. }
  destruct (Z.eqb_spec n 401) as [-> | H401].
  { destruct (string_includes msg "API key"); eexists; repeat split. }
  destruct (Z.eqb_spec n 429) as [-> | H429]; [ eexists; repeat split | ].
  destruct (Z.eqb_spec n 400) as [-> | H400].
  { destruct (string_includes msg "Content policy violation"); eexists; repeat split. }
  destruct (Z.eqb_spec n 0) as [ | _ ]; [ contradiction | ].
  destruct (Z.eqb_spec n 408) as [-> | H408]; [ eexists; repeat split | ].
  destruct (string_includes msg "Network error"); eexists; repeat split.
Qed.

(** [processError] on the same response. *)
Lemma processError_ApiFailure_kind (n : Z) (msg : string) :
  exists b,
    ErrorHandler.processError (ApiFailure n msg) = Normal b /\
    get b "type"
    = ErrorType_value
        (if n =? 401 then
           if string_includes msg "API key" then API_KEY_INVALID else API_KEY_MISSING
         else if n =? 429 then API_RATE_LIMIT
         else if n =? 400 then
           if string_includes msg "content policy"
           then API_CONTENT_POLICY else VALIDATION_ERROR
         else if (n =? 0) || (n =? 408) then NETWORK_ERROR
         else API_GENERAL_ERROR) /\
    get b "retryable" = Boolean (negb ((n =? 401) || (n =? 400))).
Proof.
  rewrite processError_ApiFailure. unfold ErrorHandler.processApiResponseError.
  change (get (ApiFailure n msg) "statusCode") with (Number n).
  change (get (ApiFailure n msg) "error") with (Str msg).
  rewrite or_else_Str. cbn [call_includes bind].
  rewrite !message_includes_default by reflexivity.
  destruct (Z.eqb_spec n 401) as [-> | H401].
  { destruct (string_includes msg "API key"); eexists; repeat split. }
  destruct (Z.eqb_spec n 429) as [-> | H429]; [ eexists; repeat split | ].
  destruct (Z.eqb_spec n 400) as [-> | H400].
  { destruct (string_includes msg "content policy"); eexists; repeat split. }
  destruct ((n =? 0) || (n =? 408)); eexists; repeat split.
Qed.

(** X21.  The two conversions of a failed response make the same retry
    decision.  For every status code and error text,
    [OpenAIService.responseToAppError] and [ErrorHandler.processError] give
    the same [retryable] flag, and errors that the default policy treats
    alike; on the status codes 401, 429 and 408 they give the same kind as
    well. *)
Theorem conversions_make_same_retry_decision (n : Z) (msg : string)
  (a b : Value)
  (Ha : OpenAIService.responseToAppError (ApiFailure n msg) = Normal a)
  (Hb : ErrorHandler.processError (ApiFailure n msg) = Normal b) :
  get a "retryable" = get b "retryable" /\
  RetryService.isRetryableError a (RetryService.retryableErrors RetryService.defaultOptions)
  = RetryService.isRetryableError b (RetryService.retryableErrors RetryService.defaultOptions) /\
  (n = 401 \/ n = 429 \/ n = 408 -> get a "type" = get b "type").
Proof.
  destruct (responseToAppError_ApiFailure n msg) as (a' & Ha' & _ & Hka & Hfa).
  destruct (processError_ApiFailure_kind n msg) as (b' & Hb' & Hkb & Hfb).
  rewrite Ha in Ha'. injection Ha' as <-. rewrite Hb in Hb'. injection Hb' as <-.
  split; [ now rewrite Hfa, Hfb | ].
  split.
  - unfold RetryService.isRetryableError. rewrite Hfa, Hfb, Hka, Hkb.
    destruct (n =? 401), (n =? 429), (n =? 400), (n =? 0), (n =? 408),
      (string_includes msg "API key"), (string_includes msg "Content policy violation"),
      (string_includes msg "content policy"), (string_includes msg "Network error");
      reflexivity.
  - rewrite Hka, Hkb. intros [ -> | [ -> | -> ] ]; reflexivity.
Qed.

Lemma conversions_make_same_retry_decision_witness :
  get (Object PlainObject
         [("type", Str "NETWORK_ERROR"); ("message", Str "Request timeout. Please try again.");
          ("code", Number 408); ("retryable", Boolean true)]) "type"
  = get (Object PlainObject
           [("type", Str "NETWORK_ERROR");
            ("message", Str "Request timeout. Please try again.");
            ("code", Number 408); ("retryable", Boolean true)]) "type".
Proof.
  exact (proj2 (proj2 (conversions_make_same_retry_decision 408
                         "Request timeout. Please try again." _ _ eq_refl eq_refl))
           (or_intror (or_intror eq_refl))).
Defined.

(** X22.  In [responseToAppError] the status code 0 never selects a kind:
    [statusCode || 500] turns it into 500 before the [switch], so a response
    with status 0 is given the code 500 and is classified by its text,
    NETWORK_ERROR when it contains "Network error" and API_GENERAL_ERROR
    otherwise, where [processError] answers NETWORK_ERROR for every text. *)
Theorem status_zero_classified_by_text (msg : string) :
  exists a b,
    OpenAIService.responseToAppError (ApiFailure 0 msg) = Normal a /\
    ErrorHandler.processError (ApiFailure 0 msg) = Normal b /\
    get a "code" = Number 500 /\
    get b "code" = Number 500 /\
    get a "type"
    = ErrorType_value
        (if string_includes msg "Network error" then NETWORK_ERROR else API_GENERAL_ERROR) /\
    get b "type" = ErrorType_value NETWORK_ERROR.
Proof.
  destruct (responseToAppError_ApiFailure 0 msg) as (a & Ha & Hcode & Hkind & _).
  exists a. eexists. split; [ exact Ha | ].
  split; [ reflexivity | ]. repeat split; assumption.
Qed.

(** No method changes the callbacks a manager was constructed with. *)
Lemma run_retryCallbacks {platform : Platform} {T : Type}
    (steps : list (RetryManager.Step (T := T))) :
  forall m,
    RetryManager.retryCallbacks (RetryManager.run m steps) = RetryManager.retryCallbacks m.
Proof.
  induction steps as [ | s steps IH ]; intros m; [ reflexivity | ].
  cbn [RetryManager.run fold_left]. unfold RetryManager.run in IH. rewrite IH.
  destruct s as [ | outcome | | outcome | ]; cbn [RetryManager.step]; try reflexivity.
  - unfold RetryManager.execute_settle. destruct outcome as [ value | error ]; [ reflexivity | ].
    destruct (ErrorHandler.processError error); reflexivity.
  - unfold RetryManager.retry_start. destruct (negb (RetryManager.canRetry m)); reflexivity.
  - unfold RetryManager.retry_settle. destruct outcome as [ value | error ]; [ reflexivity | ].
    destruct (ErrorHandler.processError error); reflexivity.
Qed.

(** X23.  [reset()] gives back the manager as it was constructed, whatever
    was called on it before and whether or not a call is still pending:
    options, callbacks and state are those of [new RetryManager(operation,
    options)], so the calls that follow behave as on a new manager. *)
Theorem reset_gives_fresh_manager {platform : Platform} {T : Type} (opts : RetryOptions)
    (before after : list (RetryManager.Step (T := T))) :
  RetryManager.reset (RetryManager.run (RetryManager.new opts) before) = RetryManager.new opts /\
  RetryManager.run (RetryManager.new opts) (before ++ RetryManager.Reset :: after)
  = RetryManager.run (RetryManager.new opts) after.
Proof.
  assert (Hreset : RetryManager.reset (RetryManager.run (RetryManager.new opts) before)
                   = RetryManager.new opts).
  { unfold RetryManager.reset, RetryManager.set_state.
    rewrite run_options, run_retryCallbacks. reflexivity. }
  split; [ exact Hreset | ].
  unfold RetryManager.run in *. rewrite fold_left_app. cbn [fold_left RetryManager.step].
  now rewrite Hreset.
Qed.
